(** * A shallow embedding of the logger facade (src/index.ts)

    The repository wires a winston logger whose [format.printf] callback
    builds one JSON record per call.  This development embeds the
    JavaScript values the callback handles, [JSON.stringify], the level
    table [levelMap], the two formatters and the wrapper [logWrapper],
    and states the properties of the specification over them. *)

From Stdlib Require Import String Ascii List ZArith NArith Bool Lia.
From Stdlib Require Import DecimalString DecimalZ DecimalPos.
Import ListNotations.
Local Open Scope list_scope.
Local Open Scope string_scope.

(** ** JavaScript values

    Numbers are the integer-valued ones (pid, level codes); strings are
    sequences of code units below 256.  An object is the list of its own
    enumerable string-keyed properties in creation order, with pairwise
    distinct keys.  [VFun] stands for a function object, which the code
    reaches only through the prototype chain.  Functions are never
    called here: an object holding a function under the key toJSON,
    which [JSON.stringify] would call, lies outside the values the
    serializer below describes ([toJSON_free] marks those inside). *)

Local Unset Elimination Schemes.

Inductive value : Type :=
| VUndefined
| VNull
| VBool (b : bool)
| VNum (n : Z)
| VStr (s : string)
| VFun (name : string)
| VArr (elems : list value)
| VObj (props : list (string * value)).

Local Set Elimination Schemes.

Definition object : Type := list (string * value).

(** Induction over nested values. *)
Section ValueInduction.
Variable P : value -> Prop.
Hypothesis P_undefined : P VUndefined.
Hypothesis P_null : P VNull.
Hypothesis P_bool : forall b, P (VBool b).
Hypothesis P_num : forall n, P (VNum n).
Hypothesis P_str : forall s, P (VStr s).
Hypothesis P_fun : forall f, P (VFun f).
Hypothesis P_arr : forall l, Forall P l -> P (VArr l).
Hypothesis P_obj : forall o, Forall (fun kv => P (snd kv)) o -> P (VObj o).

Fixpoint value_nested_ind (v : value) : P v :=
  match v with
  | VUndefined => P_undefined
  | VNull => P_null
  | VBool b => P_bool b
  | VNum n => P_num n
  | VStr s => P_str s
  | VFun f => P_fun f
  | VArr l =>
      P_arr l
        (list_ind (Forall P) (Forall_nil P)
           (fun x xs IH => Forall_cons x (value_nested_ind x) IH) l)
  | VObj o =>
      P_obj o
        (list_ind (Forall (fun kv => P (snd kv)))
           (Forall_nil _)
           (fun kv kvs IH =>
              Forall_cons kv (value_nested_ind (snd kv)) IH) o)
  end.
End ValueInduction.

(** ToBoolean, and the operator [a || b]. *)
Definition truthy (v : value) : bool :=
  match v with
  | VUndefined | VNull => false
  | VBool b => b
  | VNum n => negb (n =? 0)%Z
  | VStr s => negb (s =? "")
  | VFun _ | VArr _ | VObj _ => true
  end.

Definition js_or (a b : value) : value := if truthy a then a else b.

(** ** Own properties *)

Fixpoint own_property (k : string) (o : object) : option value :=
  match o with
  | [] => None
  | (k', v) :: rest => if k' =? k then Some v else own_property k rest
  end.

(** The members every plain object inherits from [Object.prototype].
    All are functions, except the accessor [__proto__], which reads as
    the prototype object itself: an object without enumerable own
    properties. *)
Definition Object_prototype_names : list string :=
  ["constructor"; "__defineGetter__"; "__defineSetter__"; "hasOwnProperty";
   "__lookupGetter__"; "__lookupSetter__"; "isPrototypeOf";
   "propertyIsEnumerable"; "toString"; "valueOf"; "__proto__";
   "toLocaleString"].

Definition mem_string (k : string) (ks : list string) : bool :=
  existsb (String.eqb k) ks.

Definition Object_prototype (k : string) : value :=
  if k =? "__proto__" then VObj []
  else if mem_string k Object_prototype_names then VFun k
  else VUndefined.

(** [o[k]] on a plain object: the own property, else the inherited
    member, else [undefined]. *)
Definition get (k : string) (o : object) : value :=
  match own_property k o with
  | Some v => v
  | None => Object_prototype k
  end.

(** No object inside the value holds a function under the key toJSON. *)
Fixpoint toJSON_free (v : value) : bool :=
  match v with
  | VArr elems => forallb toJSON_free elems
  | VObj props =>
      match get "toJSON" props with
      | VFun _ => false
      | _ => true
      end
      && forallb (fun kv => toJSON_free (snd kv)) props
  | _ => true
  end.

(** [o[k] = v]: an existing property keeps its place, a new one is
    created last. *)
Fixpoint set_prop (k : string) (v : value) (o : object) : object :=
  match o with
  | [] => [(k, v)]
  | (k', v') :: rest =>
      if k' =? k then (k, v) :: rest else (k', v') :: set_prop k v rest
  end.

(** [{...target, ...src}]: the properties of [src] are assigned in
    order onto [target]. *)
Definition spread (target src : object) : object :=
  fold_left (fun acc kv => set_prop (fst kv) (snd kv) acc) src target.

(** [const { k1, ..., kn, ...rest } = o]: the rest object holds the
    properties not named in the pattern. *)
Definition rest_properties (named : list string) (o : object) : object :=
  filter (fun kv => negb (mem_string (fst kv) named)) o.

Definition keys (o : object) : list string := map fst o.

(** ** Property enumeration order

    [JSON.stringify] and [Object.keys] visit array-index keys first, in
    ascending numeric order, then the other keys in creation order. *)

Definition string_of_N (n : N) : string :=
  NilZero.string_of_uint (N.to_uint n).

Definition array_index (k : string) : option N :=
  match NilEmpty.uint_of_string k with
  | Some d =>
      let n := N.of_uint d in
      if (string_of_N n =? k) && (n <? 4294967295)%N then Some n else None
  | None => None
  end.

Section Enumeration.
Context {A : Type}.

Fixpoint insert_index (n : N) (e : string * A)
         (l : list (N * (string * A))) : list (N * (string * A)) :=
  match l with
  | [] => [(n, e)]
  | (m, e') :: rest =>
      if (n <? m)%N then (n, e) :: l else (m, e') :: insert_index n e rest
  end.

Fixpoint index_entries (o : list (string * A)) : list (N * (string * A)) :=
  match o with
  | [] => []
  | e :: rest =>
      match array_index (fst e) with
      | Some n => insert_index n e (index_entries rest)
      | None => index_entries rest
      end
  end.

Definition is_index (e : string * A) : bool :=
  match array_index (fst e) with Some _ => true | None => false end.

Definition OrdinaryOwnPropertyKeys (o : list (string * A))
  : list (string * A) :=
  (map snd (index_entries o) ++ filter (fun e => negb (is_index e)) o)%list.
End Enumeration.

(** ** JSON.stringify *)

Definition dquote : ascii := "034"%char.
Definition backslash : ascii := "092"%char.
Definition newline : ascii := "010"%char.

Definition hex_digit (n : N) : ascii :=
  match n with
  | 0 => "0" | 1 => "1" | 2 => "2" | 3 => "3" | 4 => "4" | 5 => "5"
  | 6 => "6" | 7 => "7" | 8 => "8" | 9 => "9" | 10 => "a" | 11 => "b"
  | 12 => "c" | 13 => "d" | 14 => "e" | _ => "f"
  end%N%char.

(** The escape of one code unit inside a JSON string literal. *)
Definition quote_char (c : ascii) : string :=
  let n := N_of_ascii c in
  if (n =? 34)%N then String backslash (String dquote "")
  else if (n =? 92)%N then String backslash (String backslash "")
  else if (n =? 8)%N then String backslash "b"
  else if (n =? 9)%N then String backslash "t"
  else if (n =? 10)%N then String backslash "n"
  else if (n =? 12)%N then String backslash "f"
  else if (n =? 13)%N then String backslash "r"
  else if (n <? 32)%N then
    String backslash
      ("u00" ++ String (hex_digit (n / 16)) (String (hex_digit (n mod 16)) ""))
  else String c "".

Fixpoint quote_body (s : string) : string :=
  match s with
  | EmptyString => ""
  | String c rest => quote_char c ++ quote_body rest
  end.

Definition QuoteJSONString (s : string) : string :=
  String dquote (quote_body s ++ String dquote "").

Definition string_of_Z (n : Z) : string :=
  NilZero.string_of_int (Z.to_int n).

Fixpoint join (sep : string) (parts : list string) : string :=
  match parts with
  | [] => ""
  | [p] => p
  | p :: rest => p ++ sep ++ join sep rest
  end.

(** The brackets around the serialized members of an object or array:
    with an empty [gap] the members are joined by commas, otherwise
    each sits on its own line at the new indentation. *)
Definition enclose (opening closing gap stepback : string)
           (partial : list string) : string :=
  match partial with
  | [] => opening ++ closing
  | _ =>
      if gap =? "" then opening ++ join "," partial ++ closing
      else
        let indent := stepback ++ gap in
        opening ++ String newline indent
        ++ join ("," ++ String newline indent) partial
        ++ String newline stepback ++ closing
  end.

Definition member (gap key str : string) : string :=
  QuoteJSONString key ++ ":" ++ (if gap =? "" then "" else " ") ++ str.

Section Members.
Variable serialize : value -> option string.
Variable gap : string.

(** The members of an object whose value serializes, in creation
    order; the others are dropped. *)
Fixpoint object_members (ps : object) : list (string * string) :=
  match ps with
  | [] => []
  | kx :: rest =>
      match serialize (snd kx) with
      | Some s => (fst kx, member gap (fst kx) s) :: object_members rest
      | None => object_members rest
      end
  end.

Definition array_elements (elems : list value) : list string :=
  map (fun x => match serialize x with Some s => s | None => "null" end)
      elems.
End Members.

(** SerializeJSONProperty: [None] is the result [undefined], which
    drops the property from an object and prints [null] in an array. *)
Fixpoint SerializeJSONProperty (gap stepback : string) (v : value)
  : option string :=
  match v with
  | VUndefined | VFun _ => None
  | VNull => Some "null"
  | VBool true => Some "true"
  | VBool false => Some "false"
  | VNum n => Some (string_of_Z n)
  | VStr s => Some (QuoteJSONString s)
  | VArr elems =>
      Some (enclose "[" "]" gap stepback
              (array_elements
                 (SerializeJSONProperty gap (stepback ++ gap)) elems))
  | VObj props =>
      Some (enclose "{" "}" gap stepback
              (map snd
                 (OrdinaryOwnPropertyKeys
                    (object_members
                       (SerializeJSONProperty gap (stepback ++ gap))
                       gap props))))
  end.

(** [JSON.stringify(o)] and [JSON.stringify(o, null, 2)] on an object. *)
Definition JSON_stringify (o : object) : string :=
  match SerializeJSONProperty "" "" (VObj o) with
  | Some s => s
  | None => ""
  end.

Definition JSON_stringify_pretty (o : object) : string :=
  match SerializeJSONProperty "  " "" (VObj o) with
  | Some s => s
  | None => ""
  end.

(** Text with double quotes written as apostrophes, for readable
    expected outputs. *)
Fixpoint json_text (s : string) : string :=
  match s with
  | EmptyString => ""
  | String c rest =>
      String (if (c =? "'")%char then dquote else c) (json_text rest)
  end.

(** ** ToString, as applied by property keys and template literals *)

Definition array_element_text (to_string : value -> string) (x : value)
  : string :=
  match x with
  | VUndefined | VNull => ""
  | _ => to_string x
  end.

(** The name in the source text of an inherited function: that of the
    member, except for [constructor], which is the function [Object]. *)
Definition function_name (member : string) : string :=
  if member =? "constructor" then "Object" else member.

Fixpoint ToString (v : value) : string :=
  match v with
  | VUndefined => "undefined"
  | VNull => "null"
  | VBool true => "true"
  | VBool false => "false"
  | VNum n => string_of_Z n
  | VStr s => s
  | VFun name => "function " ++ function_name name ++ "() { [native code] }"
  | VArr elems => join "," (map (array_element_text ToString) elems)
  | VObj _ => "[object Object]"
  end.

(** ** The process: environment, host and pid

    [process.env], [os.hostname()] and [process.pid] are read-only
    inputs of the formatter; [colorizer] is the terminal colouring
    winston applies to a level name in console mode. *)

Record Process : Type := {
  process_env : string -> option string;
  os_hostname : string;
  process_pid : Z;
  colorizer : string -> string
}.

(** [process.env.NAME || fallback]: unset and empty both fall back. *)
Definition env_or (v : option string) (fallback : string) : string :=
  match v with
  | Some s => if s =? "" then fallback else s
  | None => fallback
  end.

(** ** The object the callers pass

    [StdLogObject] is the object with exactly the declared properties
    of the interface, a message and a [meta_data] object, as an object
    literal passed to the logger must be.  The interface asks
    [meta_data] for a string [trace_id] and a [stack] out of four tags;
    [mandatory_present] is that requirement on the object a call
    carries at run time.  The type also admits an object with further
    top-level properties when it is not a literal ([assignable]), and
    [logWrapper] forwards the caller's object as it is: the entry
    points [logWrapper_object] and [logger_object] take such objects. *)

Record StdLogObject : Type := {
  message : string;
  meta_data : object
}.

Definition stack_tags : list string := ["NODE"; "GRAPHQL"; "TEMPORAL"; "REDIS"].

Definition mandatory_present (md : object) : bool :=
  match own_property "trace_id" md, own_property "stack" md with
  | Some (VStr _), Some (VStr tag) => mem_string tag stack_tags
  | _, _ => false
  end.


(** The four methods of the exported [logger] object. *)
Inductive LoggerMethod : Type := Info | Error | Warn | Debug.

Definition method_level (m : LoggerMethod) : string :=
  match m with
  | Info => "info"
  | Error => "error"
  | Warn => "warn"
  | Debug => "debug"
  end.

Definition object_of (logObject : StdLogObject) : object :=
  [("message", VStr (message logObject));
   ("meta_data", VObj (meta_data logObject))].

(** ** winston, as the wiring uses it

    The library behaviour the source relies on: the npm level table,
    the default level of [createLogger], the info object [log] builds,
    the [label] and [timestamp] formats, and the level gate of a
    transport. *)

Module Winston.

(** The level table, a plain object like [levelMap]. *)
Definition levels : object :=
  [("error", VNum 0); ("warn", VNum 1); ("info", VNum 2); ("http", VNum 3);
   ("verbose", VNum 4); ("debug", VNum 5); ("silly", VNum 6)].

(** What [levels[name]] is worth in a comparison: the number of a
    table name, the text of an inherited function or of the prototype
    object, and NaN for [undefined].  Nothing else comes out of the
    table. *)
Inductive rank : Type :=
| Rank (n : Z)
| RankText (s : string)
| RankNaN.

Definition level_rank (name : string) : rank :=
  match get name levels with
  | VNum n => Rank n
  | VFun f => RankText (ToString (VFun f))
  | VObj o => RankText (ToString (VObj o))
  | _ => RankNaN
  end.

(** [a >= b]: numbers by value, two texts in dictionary order, and
    false as soon as a side is NaN or a text meets a number (the text
    of a function is not a number). *)
Definition rank_ge (a b : rank) : bool :=
  match a, b with
  | Rank x, Rank y => (y <=? x)%Z
  | RankText s, RankText t => String.leb t s
  | _, _ => false
  end.

(** [createLogger({ level })]: an undefined level defaults to info. *)
Definition createLogger_level (option_level : option string) : string :=
  match option_level with
  | Some l => l
  | None => "info"
  end.

(** [logger.log(level, msg)] with an object [msg]: [msg.level = level]. *)
Definition log_info (level : string) (msg : object) : object :=
  set_prop "level" (VStr level) msg.

Definition format_label (label : string) (info : object) : object :=
  set_prop "label" (VStr label) info.

(** The timestamp format fills [info.timestamp] only when the info
    object has no truthy one. *)
Definition format_timestamp (now : string) (info : object) : object :=
  if truthy (get "timestamp" info) then info
  else set_prop "timestamp" (VStr now) info.

(** A transport skips an info object flagged [exception: true]. *)
Definition exception_flag (info : object) : bool :=
  match get "exception" info with
  | VBool true => true
  | _ => false
  end.

(** The gate of a transport: its own level, else its logger's; with
    no level at all everything passes, else
    [levels[level] >= levels[info.level]] decides. *)
Definition transport_accepts (transport_level : option string)
           (logger_level : string) (level : string) : bool :=
  let threshold :=
    match transport_level with
    | Some t => if t =? "" then logger_level else t
    | None => logger_level
    end in
  if threshold =? "" then true
  else rank_ge (level_rank threshold) (level_rank level).

End Winston.

(** ** src/index.ts *)

Module Index.

Definition serviceName (p : Process) : string :=
  env_or (process_env p "CI_PROJECT_NAME") "unknown".

Definition logLevel (p : Process) : string :=
  env_or (process_env p "LOG_LEVEL") "info".

Definition levelMap : object :=
  [("error", VNum 50); ("warn", VNum 40); ("info", VNum 30);
   ("debug", VNum 20)].

(** [levelMap[level] || level] *)
Definition severityCode (level : value) : value :=
  js_or (get (ToString level) levelMap) level.

(** The object literal of the [format.printf] callback. *)
Definition record (p : Process) (info : object) : object :=
  let timestamp := get "timestamp" info in
  let level := get "level" info in
  let message := get "message" info in
  let label := get "label" info in
  let meta :=
    rest_properties ["timestamp"; "level"; "message"; "label"] info in
  spread
    [("name", label);
     ("hostname", VStr (os_hostname p));
     ("pid", VNum (process_pid p));
     ("level", severityCode level);
     ("msg", message);
     ("time", timestamp)]
    meta.

Definition printf (p : Process) (info : object) : string :=
  JSON_stringify (record p info).

(** [createLogger({ level: process.env.LOG_LEVEL, ... })] *)
Definition wlogger_level (p : Process) : string :=
  Winston.createLogger_level (process_env p "LOG_LEVEL").

(** The info object that reaches the callback: [log] sets the level,
    then the label and timestamp formats run. *)
Definition wlogger_info (p : Process) (now level : string) (msg : object)
  : object :=
  Winston.format_timestamp now
    (Winston.format_label (serviceName p) (Winston.log_info level msg)).

(** [wlogger.log(level, msg)]: the lines the stream transport writes
    to stdout, each followed by the end-of-line sequence. *)
Definition wlogger_log (p : Process) (now level : string) (msg : object)
  : list string :=
  let info := wlogger_info p now level msg in
  if negb (Winston.exception_flag info)
     && Winston.transport_accepts None (wlogger_level p) level
  then [printf p info] else [].

Definition logWrapper (p : Process) (now level : string)
           (logObject : StdLogObject) : list string :=
  wlogger_log p now level (object_of logObject).

(** [logger.info], [logger.error], [logger.warn], [logger.debug] *)
Definition logger (m : LoggerMethod) (p : Process) (now : string)
           (logObject : StdLogObject) : list string :=
  logWrapper p now (method_level m) logObject.

(** The same wrapper and methods on the object the caller holds. *)
Definition logWrapper_object (p : Process) (now level : string)
           (logObject : object) : list string :=
  wlogger_log p now level logObject.

Definition logger_object (m : LoggerMethod) (p : Process) (now : string)
           (logObject : object) : list string :=
  logWrapper_object p now (method_level m) logObject.

End Index.

(** ** The revision with a console format (levelNumber and levelName) *)

Module Console.

Definition serviceName (p : Process) : string :=
  env_or (process_env p "CI_PROJECT_NAME") "unknown".

Definition logLevel (p : Process) : string :=
  env_or (process_env p "LOG_LEVEL") "info".

Definition levelMap : object :=
  [("error", VNum 50); ("warn", VNum 40); ("info", VNum 30);
   ("debug", VNum 20)].

Definition severityCode (level : value) : value :=
  js_or (get (ToString level) levelMap) level.

(** The callback of [consoleFormat]. *)
Definition consoleFormat_printf (info : object) : string :=
  let level := get "level" info in
  let message := get "message" info in
  let meta := rest_properties ["level"; "message"] info in
  let metaString :=
    if (length (keys meta) =? 0)%nat then ""
    else JSON_stringify_pretty meta in
  ToString level ++ ": " ++ ToString message ++ " " ++ metaString.

(** [format.combine(format.colorize(), format.printf(...))] *)
Definition consoleFormat (p : Process) (info : object) : string :=
  consoleFormat_printf
    (set_prop "level" (VStr (colorizer p (ToString (get "level" info))))
              info).

Definition record (p : Process) (info : object) : object :=
  let timestamp := get "timestamp" info in
  let level := get "level" info in
  let message := get "message" info in
  let label := get "label" info in
  let meta :=
    rest_properties ["timestamp"; "level"; "message"; "label"] info in
  spread
    [("name", label);
     ("hostname", VStr (os_hostname p));
     ("pid", VNum (process_pid p));
     ("levelNumber", severityCode level);
     ("levelName", level);
     ("msg", message);
     ("time", timestamp)]
    meta.

Definition printf (p : Process) (info : object) : string :=
  JSON_stringify (record p info).

Definition development (p : Process) : bool :=
  match process_env p "NODE_ENV" with
  | Some v => v =? "development"
  | None => false
  end.

Definition wlogger_level (p : Process) : string :=
  Winston.createLogger_level (process_env p "LOG_LEVEL").

Definition wlogger_info (p : Process) (now level : string) (msg : object)
  : object :=
  Winston.format_timestamp now
    (Winston.format_label (serviceName p) (Winston.log_info level msg)).

(** The single transport: the console one, with its own level and
    format, under [NODE_ENV === "development"], else the stream one. *)
Definition wlogger_log (p : Process) (now level : string) (msg : object)
  : list string :=
  let info := wlogger_info p now level msg in
  if development p then
    if negb (Winston.exception_flag info)
       && Winston.transport_accepts (process_env p "LOG_LEVEL")
                                    (wlogger_level p) level
    then [consoleFormat p info] else []
  else
    if negb (Winston.exception_flag info)
       && Winston.transport_accepts None (wlogger_level p) level
    then [printf p info] else [].

Definition logWrapper (p : Process) (now level : string)
           (logObject : StdLogObject) : list string :=
  wlogger_log p now level (object_of logObject).

(** [logger.info], [logger.error], [logger.warn], [logger.debug] *)
Definition logger (m : LoggerMethod) (p : Process) (now : string)
           (logObject : StdLogObject) : list string :=
  logWrapper p now (method_level m) logObject.

(** The same wrapper and methods on the object the caller holds. *)
Definition logWrapper_object (p : Process) (now level : string)
           (logObject : object) : list string :=
  wlogger_log p now level logObject.

Definition logger_object (m : LoggerMethod) (p : Process) (now : string)
           (logObject : object) : list string :=
  logWrapper_object p now (method_level m) logObject.

End Console.

(** ** The first revision of the wiring

    [createLogger] is called without a [level] option; the callback,
    the label and timestamp formats and the stream transport are those
    of src/index.ts, so its record and info object are reused. *)

Module Legacy.

Definition wlogger_level : string := Winston.createLogger_level None.

Definition wlogger_log (p : Process) (now level : string) (msg : object)
  : list string :=
  let info := Index.wlogger_info p now level msg in
  if negb (Winston.exception_flag info)
     && Winston.transport_accepts None wlogger_level level
  then [Index.printf p info] else [].

Definition logWrapper (p : Process) (now level : string)
           (logObject : StdLogObject) : list string :=
  wlogger_log p now level (object_of logObject).

Definition logger (m : LoggerMethod) (p : Process) (now : string)
           (logObject : StdLogObject) : list string :=
  logWrapper p now (method_level m) logObject.

End Legacy.

(** ** Loading the module

    [blogger] is created when the module loads, with [logLevel] as the
    level of its stream; bunyan refuses a level name it does not know
    and the module then fails before any logger exists.  The loggers
    above are those of a module that has loaded.  With [logLevel] one
    of the names below, in lower case, it does. *)
Definition bunyan_level_names : list string :=
  ["trace"; "debug"; "info"; "warn"; "error"; "fatal"].

Definition loads_with_known_level (p : Process) : bool :=
  mem_string (Index.logLevel p) bunyan_level_names.

(** [Object.keys(o)]: the keys in the order JavaScript exposes them. *)
Definition Object_keys (o : object) : list string :=
  map fst (OrdinaryOwnPropertyKeys o).

(** The number a method's level maps to in [levelMap]. *)
Definition level_code (m : LoggerMethod) : Z :=
  match Index.severityCode (VStr (method_level m)) with
  | VNum n => n
  | _ => 0%Z
  end.

(** The properties [JSON.stringify] writes: those whose value is
    neither [undefined] nor a function. *)
Definition written (kv : string * value) : bool :=
  match snd kv with
  | VUndefined | VFun _ => false
  | _ => true
  end.

(** The keys the two callbacks write themselves, in the order of the
    object literal. *)
Definition Index_reserved : list string :=
  ["name"; "hostname"; "pid"; "level"; "msg"; "time"].

Definition Console_reserved : list string :=
  ["name"; "hostname"; "pid"; "levelNumber"; "levelName"; "msg"; "time"].

(** ** JSON.parse

    The reader of a line, for texts of the fragment modelled here:
    integer numbers without exponent and escapes below code 256.
    [None] stands for a SyntaxError or a text outside the fragment.
    The text is first cut into tokens, then read by recursive descent;
    a repeated key keeps its first place and takes the last value. *)

Inductive token : Type :=
| TLBrace | TRBrace | TLBracket | TRBracket | TComma | TColon
| TString (s : string)
| TNumber (n : Z)
| TTrue | TFalse | TNull.

Definition is_ws (c : ascii) : bool :=
  let n := N_of_ascii c in
  ((n =? 32) || (n =? 9) || (n =? 10) || (n =? 13))%N.

(** The characters of numbers and of the literals true, false, null. *)
Definition word_char (c : ascii) : bool :=
  let n := N_of_ascii c in
  (((48 <=? n) && (n <=? 57)) || ((65 <=? n) && (n <=? 90))
   || ((97 <=? n) && (n <=? 122)) || (n =? 45) || (n =? 43) || (n =? 46))%N.

Definition punctuation (c : ascii) : option token :=
  let n := N_of_ascii c in
  if (n =? 123)%N then Some TLBrace
  else if (n =? 125)%N then Some TRBrace
  else if (n =? 91)%N then Some TLBracket
  else if (n =? 93)%N then Some TRBracket
  else if (n =? 44)%N then Some TComma
  else if (n =? 58)%N then Some TColon
  else None.

Definition hex_value (c : ascii) : option N :=
  let n := N_of_ascii c in
  if ((48 <=? n) && (n <=? 57))%N then Some (n - 48)%N
  else if ((97 <=? n) && (n <=? 102))%N then Some (n - 87)%N
  else if ((65 <=? n) && (n <=? 70))%N then Some (n - 55)%N
  else None.

(** The character an escape letter stands for. *)
Definition escape_char (c : ascii) : option ascii :=
  let n := N_of_ascii c in
  if (n =? 34)%N then Some dquote
  else if (n =? 92)%N then Some backslash
  else if (n =? 47)%N then Some "/"%char
  else if (n =? 98)%N then Some "008"%char
  else if (n =? 102)%N then Some "012"%char
  else if (n =? 110)%N then Some newline
  else if (n =? 114)%N then Some "013"%char
  else if (n =? 116)%N then Some "009"%char
  else None.

Definition word_token (w : string) : option token :=
  match NilZero.int_of_string w with
  | Some d =>
      let z := Z.of_int d in
      if string_of_Z z =? w then Some (TNumber z) else None
  | None =>
      if w =? "true" then Some TTrue
      else if w =? "false" then Some TFalse
      else if w =? "null" then Some TNull
      else None
  end.

Inductive lexer_state : Type :=
| Between
| InWord (acc : list ascii)
| InString (acc : list ascii)
| Escaped (acc : list ascii)
| Unicode (acc : list ascii) (digits : list N).

Definition text_of (acc : list ascii) : string :=
  string_of_list_ascii (rev acc).

Definition hex_number (digits : list N) : N :=
  fold_left (fun a d => (a * 16 + d)%N) digits 0%N.

Fixpoint tokens (st : lexer_state) (s : string) : option (list token) :=
  match s with
  | EmptyString =>
      match st with
      | Between => Some []
      | _ => None
      end
  | String c rest =>
      let word acc :=
        let continues :=
          match rest with
          | String c' _ => word_char c'
          | EmptyString => false
          end in
        if continues then tokens (InWord (c :: acc)) rest
        else
          match word_token (text_of (c :: acc)) with
          | Some t => option_map (cons t) (tokens Between rest)
          | None => None
          end in
      match st with
      | Between =>
          if is_ws c then tokens Between rest
          else
            match punctuation c with
            | Some t => option_map (cons t) (tokens Between rest)
            | None =>
                if (c =? dquote)%char then tokens (InString []) rest
                else if word_char c then word []
                else None
            end
      | InWord acc => word acc
      | InString acc =>
          if (c =? dquote)%char
          then option_map (cons (TString (text_of acc))) (tokens Between rest)
          else if (c =? backslash)%char then tokens (Escaped acc) rest
          else if (N_of_ascii c <? 32)%N then None
          else tokens (InString (c :: acc)) rest
      | Escaped acc =>
          match escape_char c with
          | Some x => tokens (InString (x :: acc)) rest
          | None =>
              if (c =? "u")%char then tokens (Unicode acc []) rest else None
          end
      | Unicode acc digits =>
          match hex_value c with
          | Some d =>
              let digits' := (digits ++ [d])%list in
              if (length digits' =? 4)%nat then
                if (hex_number digits' <? 256)%N
                then tokens (InString (ascii_of_N (hex_number digits') :: acc))
                            rest
                else None
              else tokens (Unicode acc digits') rest
          | None => None
          end
      end
  end.

Section Loops.
Variable parse_value : list token -> option (value * list token).

(** The elements after an opening bracket, up to the closing one. *)
Fixpoint parse_elements (n : nat) (acc : list value) (ts : list token)
  : option (value * list token) :=
  match n with
  | O => None
  | S n' =>
      match parse_value ts with
      | Some (v, TComma :: r) => parse_elements n' (v :: acc) r
      | Some (v, TRBracket :: r) => Some (VArr (rev (v :: acc)), r)
      | _ => None
      end
  end.

(** The members after an opening brace, up to the closing one. *)
Fixpoint parse_members (n : nat) (acc : object) (ts : list token)
  : option (value * list token) :=
  match n with
  | O => None
  | S n' =>
      match ts with
      | TString k :: TColon :: r =>
          match parse_value r with
          | Some (v, TComma :: r') => parse_members n' (set_prop k v acc) r'
          | Some (v, TRBrace :: r') => Some (VObj (set_prop k v acc), r')
          | _ => None
          end
      | _ => None
      end
  end.
End Loops.

Fixpoint parse_value (fuel : nat) (ts : list token)
  : option (value * list token) :=
  match fuel with
  | O => None
  | S f =>
      match ts with
      | TNull :: r => Some (VNull, r)
      | TTrue :: r => Some (VBool true, r)
      | TFalse :: r => Some (VBool false, r)
      | TNumber n :: r => Some (VNum n, r)
      | TString s :: r => Some (VStr s, r)
      | TLBracket :: TRBracket :: r => Some (VArr [], r)
      | TLBracket :: r => parse_elements (parse_value f) f [] r
      | TLBrace :: TRBrace :: r => Some (VObj [], r)
      | TLBrace :: r => parse_members (parse_value f) f [] r
      | _ => None
      end
  end.

Definition JSON_parse (text : string) : option value :=
  match tokens Between text with
  | Some ts =>
      match parse_value (S (length ts)) ts with
      | Some (v, []) => Some v
      | _ => None
      end
  | None => None
  end.

(** The values that a line carries unchanged: no [undefined] and no
    function inside, and objects whose keys are distinct and not array
    indices, so that creation order is enumeration order. *)
Fixpoint distinct (ks : list string) : bool :=
  match ks with
  | [] => true
  | k :: rest => negb (mem_string k rest) && distinct rest
  end.

Definition not_index (k : string) : bool :=
  match array_index k with Some _ => false | None => true end.

Fixpoint plain (v : value) : bool :=
  match v with
  | VUndefined | VFun _ => false
  | VNull | VBool _ | VNum _ | VStr _ => true
  | VArr elems => forallb plain elems
  | VObj props =>
      forallb (fun kv => plain (snd kv)) props
      && distinct (map fst props)
      && forallb (fun kv => not_index (fst kv)) props
  end.

(** The tokens of the line of a plain value. *)
Fixpoint separated (groups : list (list token)) : list token :=
  match groups with
  | [] => []
  | [g] => g
  | g :: rest => (g ++ TComma :: separated rest)%list
  end.

Definition member_tokens (value_tokens : value -> list token)
           (kv : string * value) : list token :=
  TString (fst kv) :: TColon :: value_tokens (snd kv).

Fixpoint value_tokens (v : value) : list token :=
  match v with
  | VUndefined | VFun _ => []
  | VNull => [TNull]
  | VBool true => [TTrue]
  | VBool false => [TFalse]
  | VNum n => [TNumber n]
  | VStr s => [TString s]
  | VArr elems =>
      (TLBracket :: separated (map value_tokens elems) ++ [TRBracket])%list
  | VObj props =>
      (TLBrace :: separated (map (member_tokens value_tokens) props)
       ++ [TRBrace])%list
  end.

Fixpoint all_word (s : string) : bool :=
  match s with
  | EmptyString => true
  | String c rest => word_char c && all_word rest
  end.

(** What may follow a number or a literal: the end or a character that
    does not continue it. *)
Definition delimited (rest : string) : bool :=
  match rest with
  | EmptyString => true
  | String c _ => negb (word_char c)
  end.

(** [s] is cut into the tokens [tk], whatever delimited text follows. *)
Definition lexes (s : string) (tk : list token) : Prop :=
  forall rest, delimited rest = true ->
    tokens Between (s ++ rest) = option_map (app tk) (tokens Between rest).

(** ** Lines and sample inputs *)

(** The reserved fields of a record, in the order the formatter
    writes them, around the severity field or fields. *)
Definition reserved_fields (p : Process) (service now : string)
           (severity : list (string * value)) (msg : string) : object :=
  ([("name", VStr service); ("hostname", VStr (os_hostname p));
    ("pid", VNum (process_pid p))]
   ++ severity ++ [("msg", VStr msg); ("time", VStr now)])%list.

Fixpoint occurs (c : ascii) (s : string) : bool :=
  match s with
  | EmptyString => false
  | String x rest => (x =? c)%char || occurs c rest
  end.

(** A line in the sense of the sink: no newline inside. *)
Definition single_line (s : string) : Prop := occurs newline s = false.

(** A process with nothing configured. *)
Definition bare_process : Process :=
  {| process_env := fun _ => None; os_hostname := "host";
     process_pid := 4242; colorizer := fun s => s |}.

(** A process configured from the environment, colouring a level name
    with brackets. *)
Definition configured_process (service log_level node_env : option string)
  : Process :=
  {| process_env := fun k =>
       if k =? "CI_PROJECT_NAME" then service
       else if k =? "LOG_LEVEL" then log_level
       else if k =? "NODE_ENV" then node_env
       else None;
     os_hostname := "osName...";
     process_pid := 87395;
     colorizer := fun s => "[" ++ s ++ "]" |}.

(** The calls of the usage section of the source. *)
Definition usage_call (m : LoggerMethod) : StdLogObject :=
  {| message := "Hello " ++ method_level m;
     meta_data :=
       [("trace_id", VStr "123"); ("stack", VStr "NODE");
        ("wret", VStr "wert")] |}.

Definition usage_info : StdLogObject := usage_call Info.

(** The usage section run at one instant: four calls in a row. *)
Definition usage_run (logger : LoggerMethod -> Process -> string ->
                               StdLogObject -> list string)
           (p : Process) (now : string) : list string :=
  flat_map (fun m => logger m p now (usage_call m)) [Info; Error; Warn; Debug].

(** A call whose [meta_data] has neither mandatory key. *)
Definition untagged_call : StdLogObject :=
  {| message := "m"; meta_data := [] |}.

(** A process under NODE_ENV development. *)
Definition development_process : Process :=
  configured_process None None (Some "development").

(** Lines joined by newlines. *)
Definition text_lines (ls : list string) : string :=
  join (String newline "") ls.

(** A call with the mandatory metadata and nothing more. *)
Definition minimal_call : StdLogObject :=
  {| message := "m";
     meta_data := [("trace_id", VStr "1"); ("stack", VStr "NODE")] |}.


(** A logged object with a top-level property named like the reserved
    field [msg]. *)
Definition colliding_object : object :=
  [("message", VStr "original");
   ("meta_data", VObj [("trace_id", VStr "1"); ("stack", VStr "NODE")]);
   ("msg", VStr "evil")].

Definition printf_named : list string :=
  ["timestamp"; "level"; "message"; "label"].

(** * Properties *)

(** ** The level table *)

Lemma mem_string_false (k : string) (ks : list string) :
  ~ In k ks -> mem_string k ks = false.
Proof.
  unfold mem_string. induction ks as [|x xs IH]; intros Hn; simpl.
  - reflexivity.
  - destruct (String.eqb_spec k x) as [->|_].
    + exfalso. apply Hn. now left.
    + apply IH. intros Hin. apply Hn. now right.
Qed.

Lemma own_property_absent (k : string) (o : object) :
  ~ In k (keys o) -> own_property k o = None.
Proof.
  induction o as [|[k' v] rest IH]; intros Hn; simpl.
  - reflexivity.
  - destruct (String.eqb_spec k' k) as [->|_].
    + exfalso. apply Hn. now left.
    + apply IH. intros Hin. apply Hn. now right.
Qed.

(** A name that is neither in the table nor inherited from
    [Object.prototype] comes back as it went in. *)
Lemma severityCode_passthrough (level : string) :
  ~ In level ["error"; "warn"; "info"; "debug"] ->
  ~ In level Object_prototype_names ->
  Index.severityCode (VStr level) = VStr level
  /\ Console.severityCode (VStr level) = VStr level.
Proof.
  intros Hown Hproto.
  assert (Hget : get level Index.levelMap = VUndefined).
  { unfold get. rewrite own_property_absent by exact Hown.
    unfold Object_prototype.
    destruct (String.eqb_spec level "__proto__") as [->|_].
    - exfalso. apply Hproto. vm_compute. tauto.
    - now rewrite mem_string_false. }
  split; unfold Index.severityCode, Console.severityCode; simpl ToString;
    change Console.levelMap with Index.levelMap; rewrite Hget;
    reflexivity.
Qed.

(** The two names the specification tries: another casing and an
    unknown level. *)
Example severityCode_other_names :
  Index.severityCode (VStr "ERROR") = VStr "ERROR"
  /\ Index.severityCode (VStr "trace") = VStr "trace"
  /\ Index.severityCode (VStr "") = VStr "".
Proof. repeat split; reflexivity. Qed.

(** C1: each of the four level names maps to its fixed code, error to
    50, warn to 40, info to 30 and debug to 20, in both revisions of
    the table. *)
Theorem C1_level_codes :
  Index.severityCode (VStr "error") = VNum 50
  /\ Index.severityCode (VStr "warn") = VNum 40
  /\ Index.severityCode (VStr "info") = VNum 30
  /\ Index.severityCode (VStr "debug") = VNum 20
  /\ Console.severityCode (VStr "error") = VNum 50
  /\ Console.severityCode (VStr "warn") = VNum 40
  /\ Console.severityCode (VStr "info") = VNum 30
  /\ Console.severityCode (VStr "debug") = VNum 20.
Proof. repeat split; reflexivity. Qed.

(** C3: the level name "constructor" is none of the four table names,
    yet the lookup finds the member inherited from [Object.prototype],
    which is truthy: the mapping returns that function, not the input
    string, and the serialized record then has no level field. *)
Theorem C3_inherited_name_not_passed_through :
  ~ In "constructor" ["error"; "warn"; "info"; "debug"]
  /\ Index.severityCode (VStr "constructor") = VFun "constructor"
  /\ Index.severityCode (VStr "constructor") <> VStr "constructor"
  /\ Console.severityCode (VStr "constructor") = VFun "constructor"
  /\ Index.printf
       {| process_env := fun _ => None; os_hostname := "h";
          process_pid := 7; colorizer := fun s => s |}
       [("message", VStr "m"); ("level", VStr "constructor");
        ("label", VStr "svc"); ("timestamp", VStr "t")]
     = json_text "{'name':'svc','hostname':'h','pid':7,'msg':'m','time':'t'}".
Proof.
  split; [|split; [|split; [|split]]].
  - simpl. intros [H|[H|[H|[H|[]]]]]; discriminate H.
  - reflexivity.
  - discriminate.
  - reflexivity.
  - vm_compute. reflexivity.
Qed.

(** ** Defaults read from the environment *)

(** C8: with LOG_LEVEL unset the minimum level is info, for the bunyan
    stream as for the winston logger; with CI_PROJECT_NAME unset the
    service label is "unknown". *)
Theorem C8_environment_defaults (p : Process) :
  (process_env p "LOG_LEVEL" = None ->
   Index.logLevel p = "info" /\ Index.wlogger_level p = "info"
   /\ Console.logLevel p = "info" /\ Console.wlogger_level p = "info")
  /\ (process_env p "CI_PROJECT_NAME" = None ->
      Index.serviceName p = "unknown" /\ Console.serviceName p = "unknown").
Proof.
  split; intros H.
  - unfold Index.logLevel, Index.wlogger_level, Console.logLevel,
      Console.wlogger_level. rewrite H. repeat split; reflexivity.
  - unfold Index.serviceName, Console.serviceName. rewrite H.
    split; reflexivity.
Qed.

Lemma C8_environment_defaults_witness :
  Index.logLevel bare_process = "info"
  /\ Index.serviceName bare_process = "unknown".
Proof.
  destruct (C8_environment_defaults bare_process) as [Hlevel Hname].
  split.
  - apply Hlevel. reflexivity.
  - apply Hname. reflexivity.
Defined.

(** ** Text *)

Lemma append_assoc (a b c : string) : (a ++ b) ++ c = a ++ (b ++ c).
Proof. induction a as [|x a IH]; simpl; [reflexivity | now rewrite IH]. Qed.

Ltac text_eq := cbn; repeat (rewrite !append_assoc; cbn); reflexivity.

(** The sample process reproduces the example output recorded in the
    source, with LOG_LEVEL at debug; at the default level the debug
    line is missing. *)
Example usage_output :
  usage_run Index.logger
    (configured_process (Some "sb-logger-project") (Some "debug") None)
    "2024-08-14T11:16:51.678Z"
  = map json_text
      ["{'name':'sb-logger-project','hostname':'osName...','pid':87395,"
       ++ "'level':30,'msg':'Hello info','time':'2024-08-14T11:16:51.678Z',"
       ++ "'meta_data':{'trace_id':'123','stack':'NODE','wret':'wert'}}";
       "{'name':'sb-logger-project','hostname':'osName...','pid':87395,"
       ++ "'level':50,'msg':'Hello error','time':'2024-08-14T11:16:51.678Z',"
       ++ "'meta_data':{'trace_id':'123','stack':'NODE','wret':'wert'}}";
       "{'name':'sb-logger-project','hostname':'osName...','pid':87395,"
       ++ "'level':40,'msg':'Hello warn','time':'2024-08-14T11:16:51.678Z',"
       ++ "'meta_data':{'trace_id':'123','stack':'NODE','wret':'wert'}}";
       "{'name':'sb-logger-project','hostname':'osName...','pid':87395,"
       ++ "'level':20,'msg':'Hello debug','time':'2024-08-14T11:16:51.678Z',"
       ++ "'meta_data':{'trace_id':'123','stack':'NODE','wret':'wert'}}"].
Proof. vm_compute. reflexivity. Qed.

Example usage_output_default_level :
  length (usage_run Index.logger
            (configured_process (Some "sb-logger-project") None None)
            "2024-08-14T11:16:51.678Z") = 3%nat
  /\ length (usage_run Console.logger
               (configured_process None None (Some "development"))
               "2024-08-14T11:16:51.678Z") = 3%nat.
Proof. split; vm_compute; reflexivity. Qed.

(** ** Objects *)

Lemma own_property_set_same (k : string) (v : value) (o : object) :
  own_property k (set_prop k v o) = Some v.
Proof.
  induction o as [|[k' v'] rest IH]; simpl.
  - now rewrite String.eqb_refl.
  - destruct (String.eqb_spec k' k) as [->|Hne]; simpl.
    + now rewrite String.eqb_refl.
    + destruct (String.eqb_spec k' k) as [Heq|_]; [contradiction | exact IH].
Qed.

Lemma own_property_set_other (k k' : string) (v : value) (o : object) :
  k <> k' -> own_property k (set_prop k' v o) = own_property k o.
Proof.
  intros Hne. induction o as [|[k0 v0] rest IH]; simpl.
  - destruct (String.eqb_spec k' k) as [Heq|_]; [congruence | reflexivity].
  - destruct (String.eqb_spec k0 k') as [->|Hne0]; simpl.
    + destruct (String.eqb_spec k' k) as [Heq|_]; [congruence | reflexivity].
    + destruct (String.eqb_spec k0 k); [reflexivity | exact IH].
Qed.

Lemma own_property_spread_untouched (k : string) (src target : object) :
  ~ In k (keys src) ->
  own_property k (spread target src) = own_property k target.
Proof.
  unfold spread. revert target.
  induction src as [|[k1 v1] rest IH]; intros target Hn; simpl.
  - reflexivity.
  - rewrite IH.
    + apply own_property_set_other. intros ->. apply Hn. now left.
    + intros Hin. apply Hn. now right.
Qed.

(** Last write wins: a property of the spread source is the property
    of the result. *)
Lemma own_property_spread_source (k : string) (v : value)
      (src target : object) :
  NoDup (keys src) -> own_property k src = Some v ->
  own_property k (spread target src) = Some v.
Proof.
  revert target.
  induction src as [|[k1 v1] rest IH]; intros target Hnd Hk; simpl in *.
  - discriminate.
  - inversion Hnd as [|? ? Hnotin Hrest]; subst.
    destruct (String.eqb_spec k1 k) as [->|Hne].
    + injection Hk as ->.
      change (own_property k (spread (set_prop k v target) rest) = Some v).
      rewrite own_property_spread_untouched by exact Hnotin.
      apply own_property_set_same.
    + apply (IH (set_prop k1 v1 target) Hrest Hk).
Qed.

Lemma get_own (k : string) (v : value) (o : object) :
  own_property k o = Some v -> get k o = v.
Proof. intros H. unfold get. now rewrite H. Qed.

Lemma keys_rest_properties_NoDup (named : list string) (o : object) :
  NoDup (keys o) -> NoDup (keys (rest_properties named o)).
Proof.
  unfold keys, rest_properties.
  induction o as [|[k v] rest IH]; intros Hnd; simpl.
  - constructor.
  - inversion Hnd as [|? ? Hnotin Hrest]; subst.
    destruct (negb (mem_string k named)); simpl.
    + constructor; [|now apply IH].
      intros Hin. apply Hnotin.
      apply in_map_iff in Hin. destruct Hin as [[k' v'] [Hk Hin]].
      apply filter_In in Hin. destruct Hin as [Hin _].
      apply in_map_iff. now exists (k', v').
    + now apply IH.
Qed.

(** ** The record of a typed call *)

Lemma Index_typed_record (p : Process) (now level : string)
      (logObject : StdLogObject) :
  Index.record p (Index.wlogger_info p now level (object_of logObject))
  = (reserved_fields p (Index.serviceName p) now
       [("level", Index.severityCode (VStr level))] (message logObject)
     ++ [("meta_data", VObj (meta_data logObject))])%list.
Proof. reflexivity. Qed.

Lemma Console_typed_record (p : Process) (now level : string)
      (logObject : StdLogObject) :
  Console.record p (Console.wlogger_info p now level (object_of logObject))
  = (reserved_fields p (Console.serviceName p) now
       [("levelNumber", Console.severityCode (VStr level));
        ("levelName", VStr level)] (message logObject)
     ++ [("meta_data", VObj (meta_data logObject))])%list.
Proof. reflexivity. Qed.


Lemma Index_typed_line (p : Process) (now : string) (m : LoggerMethod)
      (logObject : StdLogObject) :
  Index.printf p
    (Index.wlogger_info p now (method_level m) (object_of logObject))
  = json_text "{'name':" ++ QuoteJSONString (Index.serviceName p)
    ++ json_text ",'hostname':" ++ QuoteJSONString (os_hostname p)
    ++ json_text ",'pid':" ++ string_of_Z (process_pid p)
    ++ json_text ",'level':"
    ++ ToString (Index.severityCode (VStr (method_level m)))
    ++ json_text ",'msg':" ++ QuoteJSONString (message logObject)
    ++ json_text ",'time':" ++ QuoteJSONString now
    ++ json_text ",'meta_data':" ++ JSON_stringify (meta_data logObject)
    ++ "}".
Proof.
  unfold Index.printf. rewrite Index_typed_record.
  unfold JSON_stringify, reserved_fields.
  destruct m; text_eq.
Qed.

Lemma Console_typed_line (p : Process) (now : string) (m : LoggerMethod)
      (logObject : StdLogObject) :
  Console.printf p
    (Console.wlogger_info p now (method_level m) (object_of logObject))
  = json_text "{'name':" ++ QuoteJSONString (Console.serviceName p)
    ++ json_text ",'hostname':" ++ QuoteJSONString (os_hostname p)
    ++ json_text ",'pid':" ++ string_of_Z (process_pid p)
    ++ json_text ",'levelNumber':"
    ++ ToString (Console.severityCode (VStr (method_level m)))
    ++ json_text ",'levelName':" ++ QuoteJSONString (method_level m)
    ++ json_text ",'msg':" ++ QuoteJSONString (message logObject)
    ++ json_text ",'time':" ++ QuoteJSONString now
    ++ json_text ",'meta_data':" ++ JSON_stringify (meta_data logObject)
    ++ "}".
Proof.
  unfold Console.printf. rewrite Console_typed_record.
  unfold JSON_stringify, reserved_fields.
  destruct m; text_eq.
Qed.

(** ** Level-filtered dispatch *)

(** C5: with the minimum level at info, a debug call writes no line
    and an error call writes exactly one, in structured and in console
    mode alike. *)
Theorem C5_threshold_info (p : Process) (now : string)
        (logObject : StdLogObject) :
  Index.wlogger_level p = "info" ->
  Index.logger Debug p now logObject = []
  /\ Index.logger Error p now logObject
     = [Index.printf p (Index.wlogger_info p now "error"
                          (object_of logObject))]
  /\ Console.logger Debug p now logObject = []
  /\ length (Console.logger Error p now logObject) = 1%nat.
Proof.
  intros Hlevel.
  assert (Hc : Console.wlogger_level p = "info") by exact Hlevel.
  unfold Index.logger, Index.logWrapper, Index.wlogger_log,
    Console.logger, Console.logWrapper, Console.wlogger_log.
  rewrite Hlevel, Hc.
  assert (Henv : process_env p "LOG_LEVEL" = None
                 \/ process_env p "LOG_LEVEL" = Some "info").
  { unfold Index.wlogger_level, Winston.createLogger_level in Hlevel.
    destruct (process_env p "LOG_LEVEL") as [l|];
      [right; now rewrite Hlevel | now left]. }
  repeat split; try reflexivity;
    destruct (Console.development p);
    destruct Henv as [H | H]; rewrite ?H; reflexivity.
Qed.

Lemma C5_threshold_info_witness :
  Index.logger Debug (configured_process None (Some "info") None)
    "t" usage_info = []
  /\ length (Console.logger Error
               (configured_process None (Some "info") (Some "development"))
               "t" usage_info) = 1%nat.
Proof.
  split.
  - apply (C5_threshold_info
             (configured_process None (Some "info") None) "t" usage_info).
    reflexivity.
  - apply (C5_threshold_info
             (configured_process None (Some "info") (Some "development"))
             "t" usage_info).
    reflexivity.
Defined.

(** ** Determinism of the structured formatter *)

(** C9: two invocations of the structured formatter whose level,
    message, remaining metadata, label, timestamp, hostname and pid
    agree return the same text, whatever else differs between the two
    processes and whatever the position of those fields in the info
    object. *)
Theorem C9_formatter_deterministic (p1 p2 : Process) (i1 i2 : object) :
  os_hostname p1 = os_hostname p2 ->
  process_pid p1 = process_pid p2 ->
  get "level" i1 = get "level" i2 ->
  get "message" i1 = get "message" i2 ->
  get "label" i1 = get "label" i2 ->
  get "timestamp" i1 = get "timestamp" i2 ->
  rest_properties ["timestamp"; "level"; "message"; "label"] i1
  = rest_properties ["timestamp"; "level"; "message"; "label"] i2 ->
  Index.printf p1 i1 = Index.printf p2 i2
  /\ Console.printf p1 i1 = Console.printf p2 i2.
Proof.
  intros Hh Hp Hl Hm Hb Ht Hr.
  unfold Index.printf, Console.printf, Index.record, Console.record.
  rewrite Hh, Hp, Hl, Hm, Hb, Ht, Hr. split; reflexivity.
Qed.

Lemma C9_formatter_deterministic_witness :
  Index.printf
    (configured_process (Some "a") (Some "debug") None)
    [("message", VStr "m"); ("meta_data", VObj [("trace_id", VStr "1")]);
     ("level", VStr "warn"); ("label", VStr "svc"); ("timestamp", VStr "t")]
  = Index.printf
      (configured_process None None (Some "development"))
      [("timestamp", VStr "t"); ("label", VStr "svc"); ("level", VStr "warn");
       ("message", VStr "m"); ("meta_data", VObj [("trace_id", VStr "1")])].
Proof.
  apply (C9_formatter_deterministic
           (configured_process (Some "a") (Some "debug") None)
           (configured_process None None (Some "development")));
    reflexivity.
Defined.

(** ** Reserved fields and metadata *)

(** C6, as the code has it: a top-level property of the logged object
    named like a reserved field replaces that field, here msg. *)
Lemma C6_top_level_property_replaces_msg :
  own_property "msg" colliding_object = Some (VStr "evil")
  /\ get "message" colliding_object = VStr "original"
  /\ Index.wlogger_log bare_process "t" "info" colliding_object
     = [json_text
          ("{'name':'unknown','hostname':'host','pid':4242,'level':30,"
           ++ "'msg':'evil','time':'t',"
           ++ "'meta_data':{'trace_id':'1','stack':'NODE'}}")]
  /\ get "msg" (Index.record bare_process
                  (Index.wlogger_info bare_process "t" "info"
                     colliding_object))
     <> VStr "original".
Proof.
  split; [reflexivity|]. split; [reflexivity|].
  split; [vm_compute; reflexivity|].
  vm_compute. discriminate.
Qed.

(** C6, amended: a [meta_data] key named msg, or like any other
    reserved field, leaves the reserved fields of a typed call as the
    formatter set them; at the formatter itself the remaining top-level
    properties of the info object are spread last, so each of them is a
    field of the record, a reserved name included. *)
Theorem C6_collision_policy (m : LoggerMethod) (p : Process) (now : string)
        (logObject : StdLogObject) (info : object) (k : string) (v : value) :
  NoDup (keys info) ->
  own_property k (rest_properties printf_named info) = Some v ->
  (get "msg" (Index.record p (Index.wlogger_info p now (method_level m)
                                (object_of logObject)))
   = VStr (message logObject)
   /\ get "msg" (Console.record p (Console.wlogger_info p now
                                     (method_level m) (object_of logObject)))
      = VStr (message logObject))
  /\ get k (Index.record p info) = v
  /\ get k (Console.record p info) = v.
Proof.
  intros Hnd Hk. split; [split; reflexivity|].
  split; apply get_own; unfold Index.record, Console.record;
    apply own_property_spread_source; try exact Hk;
    apply keys_rest_properties_NoDup; exact Hnd.
Qed.

Lemma C6_collision_policy_witness :
  get "msg" (Index.record bare_process
               (Index.wlogger_info bare_process "t" "info" colliding_object))
  = VStr "evil".
Proof.
  apply (C6_collision_policy Info bare_process "t" usage_info
           (Index.wlogger_info bare_process "t" "info" colliding_object)
           "msg" (VStr "evil")).
  - vm_compute. repeat constructor; simpl; intuition discriminate.
  - reflexivity.
Defined.

(** ** Mandatory metadata *)

(** C4, as the code has it: a call without trace_id and stack is not
    rejected; its record is written. *)
Lemma C4_untagged_call_is_written :
  mandatory_present (meta_data untagged_call) = false
  /\ Index.logger Info bare_process "t" untagged_call
     = [json_text
          ("{'name':'unknown','hostname':'host','pid':4242,'level':30,"
           ++ "'msg':'m','time':'t','meta_data':{}}")]
  /\ Console.logger Info bare_process "t" untagged_call
     = [json_text
          ("{'name':'unknown','hostname':'host','pid':4242,"
           ++ "'levelNumber':30,'levelName':'info',"
           ++ "'msg':'m','time':'t','meta_data':{}}")].
Proof. repeat split; vm_compute; reflexivity. Qed.

(** The console transport is given the level of the logger as its
    own, so both gates agree. *)
Lemma Console_gate (p : Process) (level : string) :
  Winston.transport_accepts (process_env p "LOG_LEVEL")
    (Console.wlogger_level p) level
  = Winston.transport_accepts None (Console.wlogger_level p) level.
Proof.
  unfold Console.wlogger_level, Winston.createLogger_level,
    Winston.transport_accepts.
  destruct (process_env p "LOG_LEVEL") as [t|]; [|reflexivity].
  cbv beta iota zeta.
  destruct (t =? "") eqn:E; cbv beta iota zeta; rewrite ?E; reflexivity.
Qed.

(** C4, amended: the wrapper forwards a call whose [meta_data] lacks a
    mandatory key without any check; when its level passes the
    threshold the record is written, with [meta_data] as supplied. *)
Theorem C4_no_runtime_validation (m : LoggerMethod) (p : Process)
        (now : string) (logObject : StdLogObject) :
  mandatory_present (meta_data logObject) = false ->
  Winston.transport_accepts None (Index.wlogger_level p) (method_level m)
  = true ->
  Index.logger m p now logObject
  = [Index.printf p (Index.wlogger_info p now (method_level m)
                       (object_of logObject))]
  /\ get "meta_data"
       (Index.record p (Index.wlogger_info p now (method_level m)
                          (object_of logObject)))
     = VObj (meta_data logObject)
  /\ length (Console.logger m p now logObject) = 1%nat
  /\ get "meta_data"
       (Console.record p (Console.wlogger_info p now (method_level m)
                            (object_of logObject)))
     = VObj (meta_data logObject).
Proof.
  intros _ Hgate. split; [|split; [reflexivity | split; [|reflexivity]]].
  - unfold Index.logger, Index.logWrapper, Index.wlogger_log.
    now rewrite Hgate.
  - unfold Console.logger, Console.logWrapper, Console.wlogger_log.
    rewrite Console_gate.
    change (Console.wlogger_level p) with (Index.wlogger_level p).
    rewrite Hgate. destruct (Console.development p); reflexivity.
Qed.

Lemma C4_no_runtime_validation_witness :
  Index.logger Info bare_process "t" untagged_call
  = [Index.printf bare_process
       (Index.wlogger_info bare_process "t" (method_level Info)
          (object_of untagged_call))].
Proof.
  apply (C4_no_runtime_validation Info bare_process "t" untagged_call);
    reflexivity.
Defined.

(** ** Console mode *)

Lemma get_set_same (k : string) (v : value) (o : object) :
  get k (set_prop k v o) = v.
Proof. apply get_own, own_property_set_same. Qed.

Lemma get_set_other (k k' : string) (v : value) (o : object) :
  k <> k' -> get k (set_prop k' v o) = get k o.
Proof. intros H. unfold get. now rewrite own_property_set_other. Qed.

(** Assigning a property that the pattern names leaves the rest
    object as it was. *)
Lemma rest_properties_set_named (named : list string) (k : string)
      (v : value) (o : object) :
  mem_string k named = true ->
  rest_properties named (set_prop k v o) = rest_properties named o.
Proof.
  intros Hk. unfold rest_properties.
  induction o as [|[k' v'] rest IH]; simpl.
  - now rewrite Hk.
  - destruct (String.eqb_spec k' k) as [->|_]; simpl.
    + now rewrite Hk.
    + now rewrite IH.
Qed.

(** Through the assembled logger the callback never sees an empty rest
    object: the label, the timestamp and [meta_data] are in it. *)
Lemma Console_rest_of_typed_call (p : Process) (now level : string)
      (logObject : StdLogObject) :
  keys (rest_properties ["level"; "message"]
          (Console.wlogger_info p now level (object_of logObject)))
  = ["meta_data"; "label"; "timestamp"].
Proof. reflexivity. Qed.

(** ** Structured output is a single line *)

Lemma occurs_append (c : ascii) (a b : string) :
  occurs c (a ++ b) = occurs c a || occurs c b.
Proof.
  induction a as [|x a IH]; simpl; [reflexivity|].
  now rewrite IH, orb_assoc.
Qed.

Lemma quote_char_single_line (c : ascii) : single_line (quote_char c).
Proof.
  unfold single_line.
  destruct c as [[] [] [] [] [] [] [] []]; vm_compute; reflexivity.
Qed.

Lemma quote_body_single_line (s : string) : single_line (quote_body s).
Proof.
  unfold single_line. induction s as [|c s IH]; simpl; [reflexivity|].
  rewrite occurs_append, IH, orb_false_r. apply quote_char_single_line.
Qed.

Lemma QuoteJSONString_single_line (s : string) :
  single_line (QuoteJSONString s).
Proof.
  unfold single_line, QuoteJSONString. simpl.
  rewrite occurs_append, (quote_body_single_line s). reflexivity.
Qed.

Lemma string_of_uint_single_line (d : Decimal.uint) :
  single_line (NilEmpty.string_of_uint d).
Proof. unfold single_line. induction d; simpl; auto. Qed.

Lemma string_of_Z_single_line (n : Z) : single_line (string_of_Z n).
Proof.
  unfold single_line, string_of_Z, NilZero.string_of_int,
    NilZero.string_of_uint.
  destruct (Z.to_int n) as [d|d]; destruct d; simpl;
    try reflexivity; apply string_of_uint_single_line.
Qed.

Lemma join_single_line (sep : string) (parts : list string) :
  single_line sep -> Forall single_line parts ->
  single_line (join sep parts).
Proof.
  unfold single_line. intros Hsep Hparts.
  induction Hparts as [|x xs Hx Hxs IH]; simpl; [reflexivity|].
  destruct xs as [|y ys]; [exact Hx|].
  rewrite !occurs_append, Hx, Hsep, IH. reflexivity.
Qed.

Lemma enclose_compact_single_line (opening closing stepback : string)
      (partial : list string) :
  single_line opening -> single_line closing ->
  Forall single_line partial ->
  single_line (enclose opening closing "" stepback partial).
Proof.
  unfold single_line. intros Ho Hc Hp. unfold enclose.
  destruct partial as [|x xs].
  - now rewrite occurs_append, Ho, Hc.
  - simpl (_ =? _). cbv iota.
    rewrite !occurs_append, Ho, Hc.
    rewrite (join_single_line "," (x :: xs) eq_refl Hp). reflexivity.
Qed.

Section EnumerationFacts.
Context {A : Type}.

Lemma insert_index_In (n : N) (e x : string * A)
      (l : list (N * (string * A))) :
  In x (map snd (insert_index n e l)) -> x = e \/ In x (map snd l).
Proof.
  induction l as [|[m e'] rest IH]; simpl.
  - intros [<- | []]. now left.
  - destruct (n <? m)%N; simpl.
    + intros [<- | [<- | H]]; auto.
    + intros [<- | H]; auto. destruct (IH H); auto.
Qed.

Lemma index_entries_In (x : string * A) (o : list (string * A)) :
  In x (map snd (index_entries o)) -> In x o.
Proof.
  induction o as [|e rest IH]; simpl; [tauto|].
  destruct (array_index (fst e)).
  - intros H. apply insert_index_In in H. destruct H as [-> | H]; auto.
  - auto.
Qed.

(** Enumeration reorders the properties and adds none. *)
Lemma OrdinaryOwnPropertyKeys_In (x : string * A) (o : list (string * A)) :
  In x (OrdinaryOwnPropertyKeys o) -> In x o.
Proof.
  unfold OrdinaryOwnPropertyKeys. intros H.
  apply in_app_or in H. destruct H as [H | H].
  - now apply index_entries_In.
  - apply filter_In in H. tauto.
Qed.
End EnumerationFacts.

Lemma member_compact_single_line (k s : string) :
  single_line s -> single_line (member "" k s).
Proof.
  unfold single_line, member. intros Hs. simpl (_ =? _). cbv iota.
  rewrite !occurs_append, (QuoteJSONString_single_line k), Hs. reflexivity.
Qed.

Lemma SerializeJSONProperty_single_line (v : value) :
  forall stepback s,
    SerializeJSONProperty "" stepback v = Some s -> single_line s.
Proof.
  induction v as [| | b | n | s0 | f | l IH | o IH] using value_nested_ind;
    intros stepback s H; simpl in H; try discriminate.
  - injection H as <-. reflexivity.
  - destruct b; injection H as <-; reflexivity.
  - injection H as <-. apply string_of_Z_single_line.
  - injection H as <-. apply QuoteJSONString_single_line.
  - injection H as <-.
    apply enclose_compact_single_line; try reflexivity.
    unfold array_elements. apply Forall_map.
    apply Forall_forall. intros x Hx.
    rewrite Forall_forall in IH.
    destruct (SerializeJSONProperty "" (stepback ++ "") x) eqn:E.
    + exact (IH x Hx _ _ E).
    + reflexivity.
  - injection H as <-.
    apply enclose_compact_single_line; try reflexivity.
    apply Forall_map. apply Forall_forall. intros x Hx.
    apply OrdinaryOwnPropertyKeys_In in Hx.
    induction IH as [|[k y] rest Hy Hrest IHrest]; simpl in Hx; [contradiction|].
    simpl in Hy.
    destruct (SerializeJSONProperty "" (stepback ++ "") y) eqn:E.
    + destruct Hx as [<- | Hx]; [|now apply IHrest].
      simpl. apply member_compact_single_line. exact (Hy _ _ E).
    + now apply IHrest.
Qed.

(** Whatever the object, [JSON.stringify] without indentation returns
    text without a newline. *)
Lemma JSON_stringify_single_line (o : object) :
  single_line (JSON_stringify o).
Proof.
  unfold JSON_stringify.
  destruct (SerializeJSONProperty "" "" (VObj o)) eqn:E.
  - exact (SerializeJSONProperty_single_line _ _ _ E).
  - reflexivity.
Qed.

(** ** Reading a line back: the tokens *)

Lemma tokens_Between (c : ascii) (rest : string) :
  tokens Between (String c rest)
  = if is_ws c then tokens Between rest
    else
      match punctuation c with
      | Some t => option_map (cons t) (tokens Between rest)
      | None =>
          if (c =? dquote)%char then tokens (InString []) rest
          else if word_char c then tokens (InWord []) (String c rest)
          else None
      end.
Proof. reflexivity. Qed.

Lemma tokens_InWord (c : ascii) (acc : list ascii) (rest : string) :
  tokens (InWord acc) (String c rest)
  = if negb (delimited rest) then tokens (InWord (c :: acc)) rest
    else
      match word_token (text_of (c :: acc)) with
      | Some t => option_map (cons t) (tokens Between rest)
      | None => None
      end.
Proof. destruct rest as [|c' rest]; simpl delimited; [reflexivity|].
  rewrite negb_involutive. reflexivity. Qed.

Lemma option_map_app {A : Type} (a b : list A) (x : option (list A)) :
  option_map (app a) (option_map (app b) x) = option_map (app (a ++ b)%list) x.
Proof. destruct x; simpl; [now rewrite app_assoc | reflexivity]. Qed.

Lemma option_map_cons {A : Type} (a : A) (x : option (list A)) :
  option_map (cons a) x = option_map (app [a]) x.
Proof. destruct x; reflexivity. Qed.

Lemma quote_char_lexed (c : ascii) (acc : list ascii) (tail : string) :
  tokens (InString acc) (quote_char c ++ tail)
  = tokens (InString (c :: acc)) tail.
Proof. destruct c as [[] [] [] [] [] [] [] []]; reflexivity. Qed.

Lemma quote_body_lexed (s : string) :
  forall acc rest,
    tokens (InString acc) (quote_body s ++ String dquote rest)
    = option_map
        (cons (TString (text_of (rev (list_ascii_of_string s) ++ acc)%list)))
        (tokens Between rest).
Proof.
  induction s as [|c s IH]; intros acc rest.
  - reflexivity.
  - simpl quote_body. rewrite append_assoc, quote_char_lexed, IH.
    simpl list_ascii_of_string. simpl rev. now rewrite <- app_assoc.
Qed.

Lemma text_of_rev (s : string) :
  text_of (rev (list_ascii_of_string s)) = s.
Proof.
  unfold text_of. rewrite rev_involutive.
  apply string_of_list_ascii_of_string.
Qed.

Lemma QuoteJSONString_lexes (s : string) : lexes (QuoteJSONString s) [TString s].
Proof.
  intros rest _. unfold QuoteJSONString.
  change (String dquote (quote_body s ++ String dquote "") ++ rest)
    with (String dquote ((quote_body s ++ String dquote "") ++ rest)).
  rewrite append_assoc.
  change (String dquote "" ++ rest) with (String dquote rest).
  rewrite tokens_Between.
  change (is_ws dquote) with false. change (punctuation dquote) with (@None token).
  change (dquote =? dquote)%char with true. cbv iota.
  rewrite quote_body_lexed, app_nil_r, text_of_rev.
  apply option_map_cons.
Qed.

Lemma word_char_starts (c : ascii) :
  word_char c = true ->
  is_ws c = false /\ punctuation c = None /\ (c =? dquote)%char = false.
Proof.
  destruct c as [[] [] [] [] [] [] [] []]; vm_compute; intros H;
    try discriminate H; repeat split.
Qed.

Lemma tokens_Between_word (c : ascii) (rest : string) :
  word_char c = true ->
  tokens Between (String c rest) = tokens (InWord []) (String c rest).
Proof.
  intros H. rewrite tokens_Between.
  destruct (word_char_starts c H) as [-> [-> ->]]. now rewrite H.
Qed.

Lemma word_run (w : string) :
  forall c acc rest,
    all_word (String c w) = true -> delimited rest = true ->
    tokens (InWord acc) (String c w ++ rest)
    = match word_token
              (text_of (rev (list_ascii_of_string w) ++ c :: acc)%list) with
      | Some t => option_map (cons t) (tokens Between rest)
      | None => None
      end.
Proof.
  induction w as [|c' w IH]; intros c acc rest Hw Hd.
  - change (String c "" ++ rest) with (String c rest).
    rewrite tokens_InWord, Hd. reflexivity.
  - change (String c (String c' w) ++ rest)
      with (String c (String c' w ++ rest)).
    rewrite tokens_InWord.
    simpl in Hw. apply andb_prop in Hw. destruct Hw as [_ Hw].
    assert (Hc' : word_char c' = true).
    { apply andb_prop in Hw. tauto. }
    change (delimited (String c' w ++ rest)) with (negb (word_char c')).
    rewrite Hc'. simpl negb. cbv iota.
    rewrite IH by (simpl; exact Hw || assumption).
    simpl list_ascii_of_string. simpl rev. now rewrite <- app_assoc.
Qed.

(** A word made of word characters, followed by delimited text, is one
    token. *)
Lemma word_lexes (w : string) (t : token) :
  w <> "" -> all_word w = true -> word_token w = Some t -> lexes w [t].
Proof.
  intros Hne Hw Ht rest Hd. destruct w as [|c w]; [congruence|].
  change (String c w ++ rest) with (String c (w ++ rest)).
  rewrite tokens_Between_word
    by (simpl in Hw; apply andb_prop in Hw; tauto).
  change (String c (w ++ rest)) with (String c w ++ rest).
  rewrite word_run by assumption.
  replace (text_of (rev (list_ascii_of_string w) ++ [c])%list)
    with (String c w).
  - rewrite Ht. apply option_map_cons.
  - unfold text_of. rewrite rev_app_distr, rev_involutive. simpl.
    now rewrite string_of_list_ascii_of_string.
Qed.

Lemma string_of_uint_all_word (d : Decimal.uint) :
  all_word (NilEmpty.string_of_uint d) = true.
Proof. induction d; simpl; auto. Qed.

Lemma string_of_uint_nonempty (d : Decimal.uint) :
  d <> Decimal.Nil -> NilEmpty.string_of_uint d <> "".
Proof. destruct d; simpl; congruence. Qed.

Lemma number_lexes (n : Z) : lexes (string_of_Z n) [TNumber n].
Proof.
  apply word_lexes.
  - unfold string_of_Z, NilZero.string_of_int, NilZero.string_of_uint.
    destruct n as [|q|q]; simpl; try discriminate;
      destruct (Pos.to_uint q) eqn:E; simpl; discriminate.
  - unfold string_of_Z, NilZero.string_of_int, NilZero.string_of_uint.
    destruct (Z.to_int n) as [d|d]; destruct d; simpl; try reflexivity;
      apply string_of_uint_all_word.
  - unfold word_token, string_of_Z. rewrite NilZero.isi.
    + rewrite DecimalZ.of_to, String.eqb_refl. reflexivity.
    + destruct n; simpl; try discriminate;
        intros H; injection H; apply DecimalPos.Unsigned.to_uint_nonnil.
    + destruct n; simpl; try discriminate;
        intros H; injection H; apply DecimalPos.Unsigned.to_uint_nonnil.
Qed.

Lemma tokens_Between_punctuation (c : ascii) (t : token) (rest : string) :
  punctuation c = Some t ->
  tokens Between (String c rest) = option_map (app [t]) (tokens Between rest).
Proof.
  intros H. rewrite tokens_Between, H.
  assert (Hws : is_ws c = false).
  { revert H. destruct c as [[] [] [] [] [] [] [] []]; vm_compute;
      intros H; try discriminate H; reflexivity. }
  rewrite Hws. apply option_map_cons.
Qed.

Lemma lexes_join (parts : list string) (groups : list (list token)) :
  Forall2 lexes parts groups -> lexes (join "," parts) (separated groups).
Proof.
  induction 1 as [|s g parts groups Hs Hrest IH].
  - intros rest _. simpl. destruct (tokens Between rest); reflexivity.
  - destruct Hrest as [|s2 g2 parts groups Hs2 Hrest]; [exact Hs|].
    intros rest Hd.
    change (join "," (s :: s2 :: parts))
      with (s ++ "," ++ join "," (s2 :: parts)).
    change (separated (g :: g2 :: groups))
      with (g ++ TComma :: separated (g2 :: groups))%list.
    rewrite !append_assoc.
    change ("," ++ join "," (s2 :: parts) ++ rest)
      with (String "," (join "," (s2 :: parts) ++ rest)).
    rewrite Hs by reflexivity.
    rewrite (tokens_Between_punctuation "," TComma) by reflexivity.
    rewrite (IH rest Hd), !option_map_app.
    now rewrite <- app_assoc.
Qed.

Lemma lexes_enclose (o c : ascii) (open close : token)
      (stepback : string) (parts : list string) (groups : list (list token)) :
  punctuation o = Some open -> punctuation c = Some close ->
  Forall2 lexes parts groups ->
  lexes (enclose (String o "") (String c "") "" stepback parts)
        (open :: separated groups ++ [close]).
Proof.
  intros Ho Hc H rest Hd. pose proof (lexes_join _ _ H) as Hj.
  assert (Hdc : delimited (String c rest) = true).
  { simpl. revert Hc. destruct c as [[] [] [] [] [] [] [] []]; vm_compute;
      intros Hc; try discriminate Hc; reflexivity. }
  destruct H as [|s g parts groups Hs Hrest].
  - change (enclose (String o "") (String c "") "" stepback [] ++ rest)
      with (String o (String c rest)).
    rewrite (tokens_Between_punctuation o open) by exact Ho.
    rewrite (tokens_Between_punctuation c close) by exact Hc.
    rewrite option_map_app. reflexivity.
  - change (enclose (String o "") (String c "") "" stepback (s :: parts))
      with (String o "" ++ join "," (s :: parts) ++ String c "").
    rewrite !append_assoc.
    change (String o "" ++ join "," (s :: parts) ++ String c "" ++ rest)
      with (String o (join "," (s :: parts) ++ String c rest)).
    rewrite (tokens_Between_punctuation o open) by exact Ho.
    rewrite Hj by exact Hdc.
    rewrite (tokens_Between_punctuation c close) by exact Hc.
    rewrite !option_map_app. reflexivity.
Qed.

Lemma member_lexes (k s : string) (tk : list token) :
  lexes s tk -> lexes (member "" k s) (TString k :: TColon :: tk).
Proof.
  intros Hs rest Hd. unfold member.
  change (if "" =? "" then "" else " ") with "".
  rewrite !append_assoc.
  change (":" ++ "" ++ s ++ rest) with (String ":" (s ++ rest)).
  rewrite QuoteJSONString_lexes by reflexivity.
  rewrite (tokens_Between_punctuation ":" TColon) by reflexivity.
  rewrite (Hs rest Hd), !option_map_app. reflexivity.
Qed.

Section EnumerationOfNames.
Context {A : Type}.

Lemma index_entries_names (o : list (string * A)) :
  forallb (fun e => not_index (fst e)) o = true -> index_entries o = [].
Proof.
  unfold not_index. induction o as [|e rest IH]; simpl; [reflexivity|].
  destruct (array_index (fst e)); [discriminate | exact IH].
Qed.

Lemma filter_names (o : list (string * A)) :
  forallb (fun e => not_index (fst e)) o = true ->
  filter (fun e => negb (is_index e)) o = o.
Proof.
  unfold not_index, is_index.
  induction o as [|e rest IH]; simpl; [reflexivity|].
  destruct (array_index (fst e)); simpl; [discriminate|].
  intros H. now rewrite IH.
Qed.

(** Without array-index keys, enumeration order is creation order. *)
Lemma OrdinaryOwnPropertyKeys_names (o : list (string * A)) :
  forallb (fun e => not_index (fst e)) o = true ->
  OrdinaryOwnPropertyKeys o = o.
Proof.
  intros H. unfold OrdinaryOwnPropertyKeys.
  now rewrite index_entries_names, filter_names.
Qed.
End EnumerationOfNames.

Lemma plain_serializes (v : value) (gap stepback : string) :
  plain v = true -> SerializeJSONProperty gap stepback v <> None.
Proof. destruct v as [| | [] | | | | |]; simpl; congruence. Qed.

Lemma object_members_lexes (ser : value -> option string) (props : object) :
  Forall (fun kv => plain (snd kv) = true ->
                    forall s, ser (snd kv) = Some s ->
                              lexes s (value_tokens (snd kv))) props ->
  forallb (fun kv => plain (snd kv)) props = true ->
  (forall x, plain x = true -> ser x <> None) ->
  forallb (fun kv => not_index (fst kv)) props = true ->
  Forall2 lexes (map snd (object_members ser "" props))
          (map (member_tokens value_tokens) props)
  /\ forallb (fun e => not_index (fst e)) (object_members ser "" props) = true.
Proof.
  intros IH Hplain Hser Hnames.
  induction IH as [|[k x] rest Hx Hrest IHrest]; simpl in *.
  - split; [constructor | reflexivity].
  - apply andb_prop in Hplain. destruct Hplain as [Hpx Hprest].
    apply andb_prop in Hnames. destruct Hnames as [Hk Hnrest].
    destruct (IHrest Hprest Hnrest) as [IH1 IH2].
    destruct (ser x) as [s|] eqn:E; [|now destruct (Hser x Hpx)].
    simpl. split.
    + constructor; [|exact IH1].
      apply member_lexes. now apply Hx.
    + now rewrite Hk, IH2.
Qed.

(** The line of a plain value is cut into the tokens of that value. *)
Lemma SerializeJSONProperty_lexes (v : value) :
  plain v = true ->
  forall stepback s,
    SerializeJSONProperty "" stepback v = Some s -> lexes s (value_tokens v).
Proof.
  induction v as [| | b | n | s0 | f | l IH | o IH] using value_nested_ind;
    intros Hplain stepback s H; simpl in H; try discriminate.
  - injection H as <-. apply word_lexes; [discriminate | reflexivity..].
  - destruct b; injection H as <-;
      apply word_lexes; solve [discriminate | reflexivity].
  - injection H as <-. apply number_lexes.
  - injection H as <-. apply QuoteJSONString_lexes.
  - injection H as <-. simpl value_tokens.
    apply (lexes_enclose "[" "]"); try reflexivity.
    simpl in Hplain. unfold array_elements.
    induction IH as [|x xs Hx Hxs IHxs]; simpl; [constructor|].
    simpl in Hplain. apply andb_prop in Hplain. destruct Hplain as [Hpx Hpxs].
    constructor; [|now apply IHxs].
    destruct (SerializeJSONProperty "" (stepback ++ "") x) eqn:E.
    + exact (Hx Hpx _ _ E).
    + now destruct (plain_serializes x "" (stepback ++ "") Hpx).
  - injection H as <-. simpl value_tokens.
    apply (lexes_enclose "{" "}"); try reflexivity.
    simpl in Hplain. apply andb_prop in Hplain. destruct Hplain as [Hplain Hn].
    apply andb_prop in Hplain. destruct Hplain as [Hp _].
    destruct (object_members_lexes
                (SerializeJSONProperty "" (stepback ++ "")) o) as [H1 H2];
      try assumption.
    + apply Forall_forall. intros kv Hin Hpk s Hs.
      rewrite Forall_forall in IH. exact (IH kv Hin Hpk _ _ Hs).
    + intros x Hx. now apply plain_serializes.
    + now rewrite OrdinaryOwnPropertyKeys_names.
Qed.

(** ** Reading a line back: the values *)

Lemma value_tokens_head (v : value) :
  plain v = true ->
  exists t ts, value_tokens v = t :: ts /\ t <> TRBracket /\ t <> TRBrace.
Proof.
  destruct v as [| | [] | | | | |]; simpl; try discriminate; intros _;
    eexists; eexists; (split; [reflexivity | split; discriminate]).
Qed.

Lemma separated_length_group (g : list token) (groups : list (list token)) :
  In g groups -> (length g <= length (separated groups))%nat.
Proof.
  induction groups as [|h rest IH]; intros Hin; [destruct Hin|].
  destruct rest as [|h2 rest].
  - destruct Hin as [-> | []]. simpl. lia.
  - change (separated (h :: h2 :: rest))
      with (h ++ TComma :: separated (h2 :: rest))%list.
    set (tail := separated (h2 :: rest)) in *.
    rewrite length_app. cbn [length].
    destruct Hin as [-> | Hin]; [lia|]. specialize (IH Hin). lia.
Qed.

Lemma separated_length_count (groups : list (list token)) :
  Forall (fun g => g <> []) groups ->
  (length groups <= length (separated groups))%nat.
Proof.
  induction 1 as [|h rest Hh Hrest IH]; [simpl; lia|].
  destruct rest as [|h2 rest].
  - destruct h; [congruence | simpl; lia].
  - change (separated (h :: h2 :: rest))
      with (h ++ TComma :: separated (h2 :: rest))%list.
    set (tail := separated (h2 :: rest)) in *.
    rewrite length_app. cbn [length] in *.
    destruct h; [congruence | cbn [length]; lia].
Qed.

Lemma parse_value_array (f : nat) (t : token) (r : list token) :
  t <> TRBracket ->
  parse_value (S f) (TLBracket :: t :: r)
  = parse_elements (parse_value f) f [] (t :: r).
Proof. destruct t; intros H; try reflexivity. congruence. Qed.

Lemma parse_elements_tokens (f : nat) (xs : list value) :
  xs <> [] ->
  Forall (fun x => forall rest,
              parse_value f (value_tokens x ++ rest) = Some (x, rest)) xs ->
  forall n acc rest,
    (length xs <= n)%nat ->
    parse_elements (parse_value f) n acc
      (separated (map value_tokens xs) ++ TRBracket :: rest)
    = Some (VArr (rev acc ++ xs), rest).
Proof.
  induction xs as [|x xs IH]; [congruence|].
  intros _ HF n acc rest Hn.
  inversion HF as [|? ? Hx Hxs]; subst.
  destruct n as [|n]; [simpl in Hn; lia|].
  destruct xs as [|y ys].
  - simpl. rewrite Hx. reflexivity.
  - change (separated (map value_tokens (x :: y :: ys)))
      with (value_tokens x ++ TComma
            :: separated (map value_tokens (y :: ys)))%list.
    rewrite <- app_assoc. simpl parse_elements. rewrite Hx.
    change ((TComma :: separated (map value_tokens (y :: ys)))
            ++ TRBracket :: rest)%list
      with (TComma :: (separated (map value_tokens (y :: ys))
                       ++ TRBracket :: rest))%list.
    rewrite IH; [|discriminate | exact Hxs | simpl in *; lia].
    simpl rev. now rewrite <- app_assoc.
Qed.

Lemma mem_string_app (k : string) (a b : list string) :
  mem_string k (a ++ b) = mem_string k a || mem_string k b.
Proof. apply existsb_app. Qed.

Lemma distinct_middle (k : string) (a b : list string) :
  distinct (a ++ k :: b) = true -> mem_string k a = false.
Proof.
  induction a as [|x a IH]; simpl; [reflexivity|].
  intros H. apply andb_prop in H. destruct H as [Hx Ha].
  rewrite (IH Ha), orb_false_r.
  rewrite mem_string_app in Hx. simpl in Hx.
  destruct (String.eqb_spec k x) as [->|_]; [|reflexivity].
  rewrite String.eqb_refl in Hx. simpl in Hx.
  now rewrite orb_true_r in Hx.
Qed.

(** Assigning a fresh key creates the property last. *)
Lemma set_prop_fresh (k : string) (v : value) (o : object) :
  mem_string k (map fst o) = false -> set_prop k v o = (o ++ [(k, v)])%list.
Proof.
  induction o as [|[k' v'] rest IH]; simpl; [reflexivity|].
  intros H. apply orb_false_elim in H. destruct H as [Hk Hrest].
  rewrite String.eqb_sym, Hk. now rewrite IH.
Qed.

Lemma parse_members_step (pv : list token -> option (value * list token))
      (n : nat) (acc : object) (k : string) (r : list token) :
  parse_members pv (S n) acc (TString k :: TColon :: r)
  = match pv r with
    | Some (v, TComma :: r') => parse_members pv n (set_prop k v acc) r'
    | Some (v, TRBrace :: r') => Some (VObj (set_prop k v acc), r')
    | _ => None
    end.
Proof. reflexivity. Qed.

Lemma parse_members_tokens (f : nat) (props : object) :
  props <> [] ->
  Forall (fun kv => forall rest,
              parse_value f (value_tokens (snd kv) ++ rest)
              = Some (snd kv, rest)) props ->
  forall n acc rest,
    (length props <= n)%nat ->
    distinct (map fst (acc ++ props)) = true ->
    parse_members (parse_value f) n acc
      (separated (map (member_tokens value_tokens) props) ++ TRBrace :: rest)
    = Some (VObj (acc ++ props), rest).
Proof.
  induction props as [|[k x] props IH]; [congruence|].
  intros _ HF n acc rest Hn Hd.
  inversion HF as [|? ? Hx Hxs]; subst. simpl in Hx.
  destruct n as [|n]; [simpl in Hn; lia|].
  assert (Hfresh : set_prop k x acc = (acc ++ [(k, x)])%list).
  { apply set_prop_fresh. rewrite map_app in Hd. simpl in Hd.
    exact (distinct_middle _ _ _ Hd). }
  destruct props as [|[k2 y] ps].
  - change (separated (map (member_tokens value_tokens) [(k, x)])
            ++ TRBrace :: rest)%list
      with (TString k :: TColon :: (value_tokens x ++ TRBrace :: rest))%list.
    rewrite parse_members_step, Hx, Hfresh. reflexivity.
  - set (tail := separated (map (member_tokens value_tokens)
                              ((k2, y) :: ps))) in *.
    change (separated (map (member_tokens value_tokens)
                         ((k, x) :: (k2, y) :: ps)))
      with (TString k :: TColon :: (value_tokens x ++ TComma :: tail))%list.
    rewrite <- !app_comm_cons, parse_members_step.
    rewrite <- app_assoc, <- app_comm_cons, Hx, Hfresh.
    unfold tail.
    rewrite IH; [|discriminate | exact Hxs | simpl in *; lia|].
    + now rewrite <- app_assoc.
    + now rewrite <- app_assoc.
Qed.

Lemma array_tokens (l : list value) (rest : list token) :
  (value_tokens (VArr l) ++ rest)%list
  = TLBracket :: (separated (map value_tokens l) ++ TRBracket :: rest)%list.
Proof. simpl. now rewrite <- app_assoc. Qed.

Lemma object_tokens (o : object) (rest : list token) :
  (value_tokens (VObj o) ++ rest)%list
  = TLBrace :: (separated (map (member_tokens value_tokens) o)
                ++ TRBrace :: rest)%list.
Proof. simpl. now rewrite <- app_assoc. Qed.

Lemma array_tokens_length (l : list value) :
  length (value_tokens (VArr l))
  = S (S (length (separated (map value_tokens l)))).
Proof. simpl. rewrite length_app. simpl. lia. Qed.

Lemma object_tokens_length (o : object) :
  length (value_tokens (VObj o))
  = S (S (length (separated (map (member_tokens value_tokens) o)))).
Proof. simpl. rewrite length_app. simpl. lia. Qed.

(** The tokens of a plain value are read back as that value, with
    fuel for every token. *)
Lemma parse_value_tokens (v : value) :
  plain v = true ->
  forall fuel rest,
    (length (value_tokens v) <= fuel)%nat ->
    parse_value fuel (value_tokens v ++ rest) = Some (v, rest).
Proof.
  induction v as [| | b | n | s0 | f | l IH | o IH] using value_nested_ind;
    intros Hp fuel rest Hf.
  - discriminate.
  - destruct fuel; [simpl in Hf; lia | reflexivity].
  - destruct b; (destruct fuel; [simpl in Hf; lia | reflexivity]).
  - destruct fuel; [simpl in Hf; lia | reflexivity].
  - destruct fuel; [simpl in Hf; lia | reflexivity].
  - discriminate.
  - rewrite array_tokens_length in Hf. rewrite array_tokens.
    destruct fuel as [|fuel]; [lia|].
    destruct l as [|x xs]; [reflexivity|].
    assert (Hall : forall y, In y (x :: xs) -> plain y = true).
    { apply forallb_forall. exact Hp. }
    destruct (value_tokens_head x (Hall x (or_introl eq_refl)))
      as (t & ts & Ht & Hnb & _).
    assert (Hsep : exists r, separated (map value_tokens (x :: xs)) = t :: r).
    { destruct xs; simpl; rewrite Ht; eexists; reflexivity. }
    destruct Hsep as [r Hsep].
    pose proof (separated_length_group) as Hg.
    pose proof (separated_length_count (map value_tokens (x :: xs))) as Hc.
    set (groups := map value_tokens (x :: xs)) in *.
    rewrite Hsep, <- app_comm_cons, parse_value_array by exact Hnb.
    rewrite app_comm_cons, <- Hsep. unfold groups.
    rewrite parse_elements_tokens; [reflexivity | discriminate | |].
    + apply Forall_forall. intros y Hy rest'.
      rewrite Forall_forall in IH. apply (IH y Hy (Hall y Hy)).
      specialize (Hg (value_tokens y) groups (in_map _ _ _ Hy)). lia.
    + assert (Hne : Forall (fun g => g <> []) groups).
      { apply Forall_forall. intros g Hin. apply in_map_iff in Hin.
        destruct Hin as (y & <- & Hy).
        destruct (value_tokens_head y (Hall y Hy)) as (t' & ts' & -> & _).
        discriminate. }
      specialize (Hc Hne). unfold groups in Hc at 1.
      rewrite length_map in Hc. lia.
  - rewrite object_tokens_length in Hf. rewrite object_tokens.
    destruct fuel as [|fuel]; [lia|].
    simpl in Hp.
    apply andb_prop in Hp. destruct Hp as [Hp _].
    apply andb_prop in Hp. destruct Hp as [Hp Hd].
    destruct o as [|[k x] ps]; [reflexivity|].
    assert (Hall : forall kv, In kv ((k, x) :: ps) -> plain (snd kv) = true).
    { apply forallb_forall. exact Hp. }
    pose proof (separated_length_group) as Hg.
    pose proof (separated_length_count
                  (map (member_tokens value_tokens) ((k, x) :: ps))) as Hc.
    assert (Hsep : exists r,
               separated (map (member_tokens value_tokens) ((k, x) :: ps))
               = TString k :: r).
    { destruct ps; simpl; eexists; reflexivity. }
    destruct Hsep as [r Hsep].
    set (groups := map (member_tokens value_tokens) ((k, x) :: ps)) in *.
    rewrite Hsep, <- app_comm_cons.
    change (parse_value (S fuel)
              (TLBrace :: TString k :: (r ++ TRBrace :: rest))%list)
      with (parse_members (parse_value fuel) fuel []
              (TString k :: (r ++ TRBrace :: rest))%list).
    rewrite app_comm_cons, <- Hsep. unfold groups.
    rewrite parse_members_tokens; [reflexivity | discriminate | | | exact Hd].
    + apply Forall_forall. intros kv Hkv rest'.
      rewrite Forall_forall in IH. apply (IH kv Hkv (Hall kv Hkv)).
      specialize (Hg (member_tokens value_tokens kv) groups
                     (in_map _ _ _ Hkv)).
      change (length (member_tokens value_tokens kv))
        with (S (S (length (value_tokens (snd kv))))) in Hg.
      lia.
    + assert (Hne : Forall (fun g => g <> []) groups).
      { apply Forall_forall. intros g Hin. apply in_map_iff in Hin.
        destruct Hin as (y & <- & Hy). discriminate. }
      specialize (Hc Hne). unfold groups in Hc at 1.
      rewrite length_map in Hc. lia.
Qed.

(** Round trip: a plain object written without indentation and read
    back is the object. *)
Theorem JSON_parse_stringify (o : object) :
  plain (VObj o) = true -> JSON_parse (JSON_stringify o) = Some (VObj o).
Proof.
  intros Hp. unfold JSON_parse, JSON_stringify.
  destruct (SerializeJSONProperty "" "" (VObj o)) as [s|] eqn:E;
    [|now destruct (plain_serializes (VObj o) "" "" Hp)].
  pose proof (SerializeJSONProperty_lexes (VObj o) Hp "" s E "" eq_refl) as Hl.
  replace (s ++ "") with s in Hl
    by (clear; induction s as [|c s IH]; simpl; [reflexivity | now f_equal]).
  rewrite Hl. change (tokens Between "") with (Some (@nil token)).
  cbn [option_map]. rewrite app_nil_r.
  pose proof (parse_value_tokens (VObj o) Hp
                (S (length (value_tokens (VObj o)))) [] (Nat.le_succ_diag_r _))
    as Hv.
  rewrite app_nil_r in Hv. rewrite Hv. reflexivity.
Qed.

(** ** The end-to-end scenario *)

(** C2: under the service label "svc", with a threshold that admits
    info, [logger.info] on the message "Hello info" and the metadata
    trace_id "123", stack "NODE", wret "wert" writes exactly one line,
    free of newlines, that reads back as the record with name "svc",
    the hostname, the pid, level 30, msg "Hello info", the timestamp
    and the whole metadata under meta_data.  The console revision, in
    structured mode, writes the same record with levelNumber 30 and
    levelName "info" for the level field. *)
Theorem C2_structured_info_line (p : Process) (now : string) :
  process_env p "CI_PROJECT_NAME" = Some "svc" ->
  Winston.transport_accepts None (Index.wlogger_level p) "info" = true ->
  let metadata :=
    [("trace_id", VStr "123"); ("stack", VStr "NODE");
     ("wret", VStr "wert")] in
  let line :=
    json_text "{'name':'svc','hostname':" ++ QuoteJSONString (os_hostname p)
    ++ json_text ",'pid':" ++ string_of_Z (process_pid p)
    ++ json_text ",'level':30,'msg':'Hello info','time':"
    ++ QuoteJSONString now
    ++ json_text
         ",'meta_data':{'trace_id':'123','stack':'NODE','wret':'wert'}}" in
  Index.logger Info p now usage_info = [line]
  /\ single_line line
  /\ JSON_parse line
     = Some (VObj [("name", VStr "svc"); ("hostname", VStr (os_hostname p));
                   ("pid", VNum (process_pid p)); ("level", VNum 30);
                   ("msg", VStr "Hello info"); ("time", VStr now);
                   ("meta_data", VObj metadata)])
  /\ (Console.development p = false ->
      map JSON_parse (Console.logger Info p now usage_info)
      = [Some (VObj [("name", VStr "svc");
                     ("hostname", VStr (os_hostname p));
                     ("pid", VNum (process_pid p));
                     ("levelNumber", VNum 30); ("levelName", VStr "info");
                     ("msg", VStr "Hello info"); ("time", VStr now);
                     ("meta_data", VObj metadata)])]).
Proof.
  intros Hsvc Hgate metadata line.
  assert (Hname : Index.serviceName p = "svc").
  { unfold Index.serviceName. now rewrite Hsvc. }
  assert (Hrun : Index.logger Info p now usage_info
                 = [Index.printf p (Index.wlogger_info p now
                                      (method_level Info)
                                      (object_of usage_info))]).
  { unfold Index.logger, Index.logWrapper, Index.wlogger_log.
    change (method_level Info) with "info". now rewrite Hgate. }
  assert (Hrecord : Index.printf p (Index.wlogger_info p now
                                      (method_level Info)
                                      (object_of usage_info))
                    = JSON_stringify
                        [("name", VStr "svc");
                         ("hostname", VStr (os_hostname p));
                         ("pid", VNum (process_pid p)); ("level", VNum 30);
                         ("msg", VStr "Hello info"); ("time", VStr now);
                         ("meta_data", VObj metadata)]).
  { unfold Index.printf. rewrite Index_typed_record, Hname. reflexivity. }
  assert (Hline : Index.printf p (Index.wlogger_info p now
                                    (method_level Info)
                                    (object_of usage_info)) = line).
  { rewrite (Index_typed_line p now Info usage_info), Hname.
    unfold line. text_eq. }
  split; [|split; [|split]].
  - rewrite Hrun. now f_equal.
  - rewrite <- Hline, Hrecord. apply JSON_stringify_single_line.
  - rewrite <- Hline, Hrecord. apply JSON_parse_stringify. reflexivity.
  - intros Hdev.
    unfold Console.logger, Console.logWrapper, Console.wlogger_log.
    rewrite Hdev. change (method_level Info) with "info".
    change (Console.wlogger_level p) with (Index.wlogger_level p).
    rewrite Hgate. change "info" with (method_level Info).
    cbn [negb andb Winston.exception_flag]. unfold Console.printf.
    rewrite Console_typed_record.
    change (Console.serviceName p) with (Index.serviceName p).
    rewrite Hname. simpl map. f_equal.
    apply JSON_parse_stringify. reflexivity.
Qed.

Lemma C2_structured_info_line_witness :
  Index.logger Info (configured_process (Some "svc") None None)
    "2024-08-14T11:16:51.678Z" usage_info
  = [json_text
       ("{'name':'svc','hostname':'osName...','pid':87395,'level':30,"
        ++ "'msg':'Hello info','time':'2024-08-14T11:16:51.678Z',"
        ++ "'meta_data':{'trace_id':'123','stack':'NODE','wret':'wert'}}")].
Proof.
  apply (C2_structured_info_line (configured_process (Some "svc") None None)
           "2024-08-14T11:16:51.678Z"); reflexivity.
Defined.

(** * Further properties of the wiring *)

(** ** Lines of the structured mode *)

(** X1: round trip of a typed call.  Whatever the method, the message
    and the metadata, provided the metadata is plain data, the line of
    the structured callback reads back as the record: the reserved
    fields with the formatter's values and the metadata, whole, under
    meta_data. *)
Theorem X1_typed_line_round_trip (m : LoggerMethod) (p : Process)
        (now : string) (logObject : StdLogObject) :
  plain (VObj (meta_data logObject)) = true ->
  JSON_parse (Index.printf p (Index.wlogger_info p now (method_level m)
                                (object_of logObject)))
  = Some (VObj [("name", VStr (Index.serviceName p));
                ("hostname", VStr (os_hostname p));
                ("pid", VNum (process_pid p));
                ("level", VNum (level_code m));
                ("msg", VStr (message logObject)); ("time", VStr now);
                ("meta_data", VObj (meta_data logObject))])
  /\ JSON_parse (Console.printf p (Console.wlogger_info p now (method_level m)
                                     (object_of logObject)))
     = Some (VObj [("name", VStr (Console.serviceName p));
                   ("hostname", VStr (os_hostname p));
                   ("pid", VNum (process_pid p));
                   ("levelNumber", VNum (level_code m));
                   ("levelName", VStr (method_level m));
                   ("msg", VStr (message logObject)); ("time", VStr now);
                   ("meta_data", VObj (meta_data logObject))]).
Proof.
  intros Hmd. unfold Index.printf, Console.printf.
  rewrite Index_typed_record, Console_typed_record.
  assert (Hi : Index.severityCode (VStr (method_level m))
               = VNum (level_code m)) by (destruct m; reflexivity).
  assert (Hc : Console.severityCode (VStr (method_level m))
               = VNum (level_code m)) by (destruct m; reflexivity).
  rewrite Hi, Hc. split.
  - apply (JSON_parse_stringify
             (reserved_fields p (Index.serviceName p) now
                [("level", VNum (level_code m))] (message logObject)
              ++ [("meta_data", VObj (meta_data logObject))])%list).
    unfold reserved_fields. simpl in Hmd |- *. rewrite Hmd. reflexivity.
  - apply (JSON_parse_stringify
             (reserved_fields p (Console.serviceName p) now
                [("levelNumber", VNum (level_code m));
                 ("levelName", VStr (method_level m))] (message logObject)
              ++ [("meta_data", VObj (meta_data logObject))])%list).
    unfold reserved_fields. simpl in Hmd |- *. rewrite Hmd. reflexivity.
Qed.

Lemma X1_typed_line_round_trip_witness :
  JSON_parse (Index.printf bare_process
                (Index.wlogger_info bare_process "t" (method_level Warn)
                   (object_of (usage_call Warn))))
  = Some (VObj [("name", VStr "unknown"); ("hostname", VStr "host");
                ("pid", VNum 4242); ("level", VNum 40);
                ("msg", VStr "Hello warn"); ("time", VStr "t");
                ("meta_data",
                 VObj [("trace_id", VStr "123"); ("stack", VStr "NODE");
                       ("wret", VStr "wert")])]).
Proof.
  apply (X1_typed_line_round_trip Warn bare_process "t" (usage_call Warn)).
  reflexivity.
Defined.

(** X2: whatever info object reaches it, typed or not, the structured
    callback returns text without a newline, in both revisions; so
    every line the stream transport writes is one line. *)
Theorem X2_structured_lines_are_single (p : Process) (now level : string)
        (info msg : object) :
  single_line (Index.printf p info)
  /\ single_line (Console.printf p info)
  /\ Forall single_line (Index.wlogger_log p now level msg)
  /\ Forall single_line (Legacy.wlogger_log p now level msg)
  /\ (Console.development p = false ->
      Forall single_line (Console.wlogger_log p now level msg)).
Proof.
  split; [apply JSON_stringify_single_line|].
  split; [apply JSON_stringify_single_line|].
  split; [|split].
  - unfold Index.wlogger_log.
    destruct (_ && _); repeat constructor. apply JSON_stringify_single_line.
  - unfold Legacy.wlogger_log.
    destruct (_ && _); repeat constructor. apply JSON_stringify_single_line.
  - intros Hdev. unfold Console.wlogger_log. rewrite Hdev.
    destruct (_ && _); repeat constructor. apply JSON_stringify_single_line.
Qed.

Lemma X2_structured_lines_are_single_witness :
  Forall single_line
    (Console.wlogger_log bare_process "t" "info"
       [("message", VStr (String newline "two lines"))]).
Proof.
  apply (X2_structured_lines_are_single bare_process "t" "info" []
           [("message", VStr (String newline "two lines"))]).
  reflexivity.
Defined.

(** ** Lines of the console mode *)

(** X3: under NODE_ENV development a typed call that passes the gate is
    written as the coloured level, a colon, the message and the
    pretty-printed object of meta_data, label and timestamp; the rest
    object is never empty there. *)
Theorem X3_development_line (m : LoggerMethod) (p : Process) (now : string)
        (logObject : StdLogObject) :
  Console.development p = true ->
  Winston.transport_accepts None (Console.wlogger_level p) (method_level m)
  = true ->
  Console.logger m p now logObject
  = [colorizer p (method_level m) ++ ": " ++ message logObject ++ " "
     ++ JSON_stringify_pretty
          [("meta_data", VObj (meta_data logObject));
           ("label", VStr (Console.serviceName p));
           ("timestamp", VStr now)]].
Proof.
  intros Hdev Hgate.
  unfold Console.logger, Console.logWrapper, Console.wlogger_log.
  rewrite Hdev, Console_gate, Hgate. reflexivity.
Qed.

Lemma X3_development_line_witness :
  Console.logger Error
    (configured_process (Some "svc") None (Some "development")) "t"
    {| message := "down"; meta_data := [] |}
  = ["[error]: down "
     ++ JSON_stringify_pretty
          [("meta_data", VObj []); ("label", VStr "svc");
           ("timestamp", VStr "t")]].
Proof.
  apply (X3_development_line Error
           (configured_process (Some "svc") None (Some "development")) "t"
           {| message := "down"; meta_data := [] |}); reflexivity.
Defined.

(** X4: the line written under NODE_ENV development is not a single
    line: the pretty-printed object puts a newline after its opening
    brace, whatever the call. *)
Theorem X4_development_line_spans_lines (m : LoggerMethod) (p : Process)
        (now : string) (logObject : StdLogObject) :
  Console.development p = true ->
  Winston.transport_accepts None (Console.wlogger_level p) (method_level m)
  = true ->
  exists line,
    Console.logger m p now logObject = [line] /\ occurs newline line = true.
Proof.
  intros Hdev Hgate. eexists. split.
  - unfold Console.logger, Console.logWrapper, Console.wlogger_log.
    rewrite Hdev, Console_gate, Hgate. reflexivity.
  - cbn [negb andb]. unfold Console.consoleFormat, Console.consoleFormat_printf.
    rewrite !occurs_append.
    match goal with
    | |- context [occurs newline (if ?c then _ else _)] =>
        change c with false
    end.
    cbv iota. unfold JSON_stringify_pretty.
    rewrite !orb_true_iff. right. right. right. right.
    reflexivity.
Qed.

Lemma X4_development_line_spans_lines_witness :
  exists line,
    Console.logger Info
      (configured_process None None (Some "development")) "t" usage_info
    = [line] /\ occurs newline line = true.
Proof.
  apply (X4_development_line_spans_lines Info
           (configured_process None None (Some "development")) "t"
           usage_info); reflexivity.
Defined.

(** ** The gate and the level codes *)

(** X5: with LOG_LEVEL set to the level of one of the four methods, a
    call is written exactly when its code in [levelMap] is at least the
    code of that level: the numeric codes order the levels as the gate
    does. *)
Theorem X5_gate_follows_codes (t m : LoggerMethod) (p : Process)
        (now : string) (logObject : StdLogObject) :
  process_env p "LOG_LEVEL" = Some (method_level t) ->
  Index.logger m p now logObject
  = (if (level_code t <=? level_code m)%Z
     then [Index.printf p (Index.wlogger_info p now (method_level m)
                             (object_of logObject))]
     else [])
  /\ length (Console.logger m p now logObject)
     = (if (level_code t <=? level_code m)%Z then 1%nat else 0%nat).
Proof.
  intros Henv. split.
  - unfold Index.logger, Index.logWrapper, Index.wlogger_log,
      Index.wlogger_level.
    rewrite Henv. destruct t, m; reflexivity.
  - unfold Console.logger, Console.logWrapper, Console.wlogger_log.
    rewrite Console_gate. unfold Console.wlogger_level. rewrite Henv.
    destruct (Console.development p); destruct t, m; reflexivity.
Qed.

Lemma X5_gate_follows_codes_witness :
  Index.logger Info (configured_process None (Some "warn") None) "t"
    usage_info = [].
Proof.
  apply (X5_gate_follows_codes Warn Info
           (configured_process None (Some "warn") None) "t" usage_info).
  reflexivity.
Defined.

(** X6: switching NODE_ENV to development changes the format of a
    line, never whether a call is written: the console revision writes
    as many lines as src/index.ts does, for every process, method and
    call. *)
Theorem X6_development_keeps_the_gate (m : LoggerMethod) (p : Process)
        (now : string) (logObject : StdLogObject) :
  length (Console.logger m p now logObject)
  = length (Index.logger m p now logObject).
Proof.
  unfold Console.logger, Console.logWrapper, Console.wlogger_log,
    Index.logger, Index.logWrapper, Index.wlogger_log.
  rewrite Console_gate.
  change (Console.wlogger_level p) with (Index.wlogger_level p).
  cbn [negb andb].
  destruct (Console.development p);
    destruct (Winston.transport_accepts None (Index.wlogger_level p)
                (method_level m)); reflexivity.
Qed.

(** X7: the first revision never hands LOG_LEVEL to the winston
    logger: in a module that loads with a level bunyan knows, be it
    debug, a debug call writes nothing and an info, warn or error call
    writes its record. *)
Theorem X7_first_revision_ignores_LOG_LEVEL (m : LoggerMethod) (p : Process)
        (now : string) (logObject : StdLogObject) :
  loads_with_known_level p = true ->
  Legacy.logger m p now logObject
  = match m with
    | Debug => []
    | _ => [Index.printf p (Index.wlogger_info p now (method_level m)
                              (object_of logObject))]
    end.
Proof. intros _. destruct m; reflexivity. Qed.

Lemma X7_first_revision_ignores_LOG_LEVEL_witness :
  Legacy.logger Debug (configured_process None (Some "debug") None) "t"
    usage_info = [].
Proof.
  apply (X7_first_revision_ignores_LOG_LEVEL Debug
           (configured_process None (Some "debug") None) "t" usage_info).
  reflexivity.
Defined.

(** X8: loading src/index.ts with LOG_LEVEL unset writes three lines,
    those of the info, error and warn calls of its usage section, in
    that order; the debug call is filtered. *)
Theorem X8_usage_section_default (p : Process) (now : string) :
  process_env p "LOG_LEVEL" = None ->
  usage_run Index.logger p now
  = map (fun m => Index.printf p (Index.wlogger_info p now (method_level m)
                                    (object_of (usage_call m))))
        [Info; Error; Warn]
  /\ usage_run Legacy.logger p now = usage_run Index.logger p now.
Proof.
  intros Henv.
  unfold usage_run, Index.logger, Index.logWrapper, Index.wlogger_log,
    Index.wlogger_level, Legacy.logger, Legacy.logWrapper,
    Legacy.wlogger_log, Legacy.wlogger_level.
  rewrite Henv. split; reflexivity.
Qed.

Lemma X8_usage_section_default_witness :
  length (usage_run Index.logger bare_process "t") = 3%nat.
Proof.
  destruct (X8_usage_section_default bare_process "t" eq_refl) as [H _].
  rewrite H. reflexivity.
Defined.

(** ** Values read from the environment *)

(** X9: the service label and the bunyan level are never the empty
    string: a nonempty variable is taken as it is, an empty one like an
    unset one gives the default. *)
Theorem X9_environment_values (p : Process) :
  Index.serviceName p <> ""
  /\ Index.logLevel p <> ""
  /\ (forall s, process_env p "CI_PROJECT_NAME" = Some s -> s <> "" ->
                Index.serviceName p = s)
  /\ (forall s, process_env p "LOG_LEVEL" = Some s -> s <> "" ->
                Index.logLevel p = s)
  /\ (process_env p "CI_PROJECT_NAME" = Some "" ->
      Index.serviceName p = "unknown")
  /\ (process_env p "LOG_LEVEL" = Some "" -> Index.logLevel p = "info").
Proof.
  unfold Index.serviceName, Index.logLevel, env_or.
  repeat split.
  - destruct (process_env p "CI_PROJECT_NAME") as [s|]; [|discriminate].
    destruct (String.eqb_spec s ""); [discriminate | assumption].
  - destruct (process_env p "LOG_LEVEL") as [s|]; [|discriminate].
    destruct (String.eqb_spec s ""); [discriminate | assumption].
  - intros s -> Hs. destruct (String.eqb_spec s ""); [contradiction|].
    reflexivity.
  - intros s -> Hs. destruct (String.eqb_spec s ""); [contradiction|].
    reflexivity.
  - intros ->. reflexivity.
  - intros ->. reflexivity.
Qed.

Lemma X9_environment_values_witness :
  Index.serviceName (configured_process (Some "svc") None None) = "svc"
  /\ Index.logLevel (configured_process None (Some "") None) = "info".
Proof.
  split.
  - apply (X9_environment_values (configured_process (Some "svc") None None));
      [reflexivity | discriminate].
  - apply (X9_environment_values (configured_process None (Some "") None)).
    reflexivity.
Defined.

(** ** The level table, completely *)

Lemma mem_string_In (k : string) (ks : list string) :
  mem_string k ks = true <-> In k ks.
Proof.
  unfold mem_string. rewrite existsb_exists. split.
  - intros (x & Hin & Heq). apply String.eqb_eq in Heq. now subst.
  - intros Hin. exists k. split; [exact Hin | apply String.eqb_refl].
Qed.

(** X10: the mapping returns a level name unchanged exactly when the
    name is none of the four table names and none of the names every
    object inherits; a table name gives a number, an inherited name a
    function or the prototype object. *)
Theorem X10_passthrough_exactly (level : string) :
  Index.severityCode (VStr level) = VStr level
  <-> ~ In level ["error"; "warn"; "info"; "debug"]
      /\ ~ In level Object_prototype_names.
Proof.
  split.
  - intros H. split; intros Hin.
    + simpl in Hin.
      destruct Hin as [<-|[<-|[<-|[<-|[]]]]]; discriminate H.
    + unfold Object_prototype_names in Hin. simpl in Hin.
      repeat (destruct Hin as [<-|Hin]; [discriminate H|]).
      destruct Hin.
  - intros [Hown Hproto]. apply (severityCode_passthrough level Hown Hproto).
Qed.

Lemma X10_passthrough_exactly_witness :
  Index.severityCode (VStr "Info") = VStr "Info".
Proof.
  apply (X10_passthrough_exactly "Info"). split.
  - simpl. intuition discriminate.
  - unfold Object_prototype_names. simpl. intuition discriminate.
Defined.

(** ** Keys of a record *)

Lemma keys_set_prop (k : string) (v : value) (o : object) :
  keys (set_prop k v o)
  = if mem_string k (keys o) then keys o else (keys o ++ [k])%list.
Proof.
  unfold keys, mem_string.
  induction o as [|[k' v'] rest IH]; simpl; [reflexivity|].
  rewrite (String.eqb_sym k k').
  destruct (String.eqb_spec k' k) as [->|_]; simpl; [reflexivity|].
  rewrite IH. now destruct (existsb (String.eqb k) (map fst rest)).
Qed.

Lemma keys_rest_properties (named : list string) (o : object) :
  keys (rest_properties named o)
  = filter (fun k => negb (mem_string k named)) (keys o).
Proof.
  unfold keys, rest_properties.
  induction o as [|[k v] rest IH]; simpl; [reflexivity|].
  destruct (negb (mem_string k named)); simpl; now rewrite IH.
Qed.

Lemma filter_fresh (k : string) (seen ks : list string) :
  ~ In k ks ->
  filter (fun x => negb (mem_string x (seen ++ [k])%list)) ks
  = filter (fun x => negb (mem_string x seen)) ks.
Proof.
  intros Hk. apply filter_ext_in. intros x Hx.
  rewrite mem_string_app. simpl.
  destruct (String.eqb_spec x k) as [->|_]; [contradiction|].
  now rewrite !orb_false_r.
Qed.

(** The keys of a spread: those of the target, in place, then the new
    ones of the source in their order. *)
Lemma keys_spread (src : object) :
  NoDup (keys src) ->
  forall target,
    keys (spread target src)
    = (keys target
       ++ filter (fun k => negb (mem_string k (keys target))) (keys src))%list.
Proof.
  induction src as [|[k v] rest IH]; intros Hnd target.
  - simpl. now rewrite app_nil_r.
  - inversion Hnd as [|? ? Hk Hrest]; subst.
    change (spread target ((k, v) :: rest))
      with (spread (set_prop k v target) rest).
    rewrite (IH Hrest), keys_set_prop. simpl filter.
    destruct (mem_string k (keys target)) eqn:E; simpl negb; cbv iota.
    + reflexivity.
    + rewrite <- app_assoc. simpl. f_equal. f_equal.
      apply filter_fresh. exact Hk.
Qed.

Lemma In_keys_set_prop (k k' : string) (v : value) (o : object) :
  In k (keys (set_prop k' v o)) -> k = k' \/ In k (keys o).
Proof.
  rewrite keys_set_prop. destruct (mem_string k' (keys o)); [tauto|].
  intros H. apply in_app_or in H. destruct H as [H | [<- | []]]; tauto.
Qed.

Lemma In_keys_spread (k : string) (src target : object) :
  In k (keys (spread target src)) -> In k (keys target) \/ In k (keys src).
Proof.
  revert target. induction src as [|[k1 v1] rest IH]; intros target H.
  - now left.
  - change (spread target ((k1, v1) :: rest))
      with (spread (set_prop k1 v1 target) rest) in H.
    destruct (IH _ H) as [Ht | Hr].
    + destruct (In_keys_set_prop _ _ _ _ Ht) as [-> | Ht'];
        [right; now left | now left].
    + right. now right.
Qed.

Lemma named_not_in_rest (k : string) (named : list string) (o : object) :
  mem_string k named = true -> ~ In k (keys (rest_properties named o)).
Proof.
  intros Hk Hin. rewrite keys_rest_properties in Hin.
  apply filter_In in Hin. destruct Hin as [_ Hin]. now rewrite Hk in Hin.
Qed.

Lemma In_keys_rest (k : string) (named : list string) (o : object) :
  In k (keys (rest_properties named o)) -> In k (keys o).
Proof.
  rewrite keys_rest_properties. intros H. apply filter_In in H. tauto.
Qed.

Lemma NoDup_keys_spread (src target : object) :
  NoDup (keys target) -> NoDup (keys src) ->
  NoDup (keys (spread target src)).
Proof.
  intros Ht Hs. rewrite keys_spread by exact Hs.
  apply NoDup_app.
  - exact Ht.
  - now apply NoDup_filter.
  - intros k Hin Hf. apply filter_In in Hf. destruct Hf as [_ Hf].
    apply mem_string_In in Hin. now rewrite Hin in Hf.
Qed.

Lemma forallb_fst {A : Type} (f : string -> bool) (o : list (string * A)) :
  forallb (fun e => f (fst e)) o = forallb f (map fst o).
Proof. induction o as [|e rest IH]; simpl; [reflexivity | now rewrite IH]. Qed.

Lemma forallb_filter {A : Type} (f g : A -> bool) (l : list A) :
  forallb f l = true -> forallb f (filter g l) = true.
Proof.
  induction l as [|x xs IH]; simpl; [reflexivity|].
  intros H. apply andb_prop in H. destruct H as [Hx Hxs].
  destruct (g x); simpl; [rewrite Hx|]; now apply IH.
Qed.

(** Without array-index keys [Object.keys] lists the properties in
    creation order. *)
Lemma Object_keys_names (o : object) :
  forallb not_index (keys o) = true -> Object_keys o = keys o.
Proof.
  intros H. unfold Object_keys.
  rewrite OrdinaryOwnPropertyKeys_names; [reflexivity|].
  now rewrite forallb_fst.
Qed.

(** X11: for an info object with distinct keys, none of them an array
    index, the keys of the record as JavaScript exposes them are
    pairwise distinct, so a line never repeats a key; the keys of the
    callback come first, in the order of the literal, followed by the
    remaining properties of the info object that do not bear one of
    those names, in their order. *)
Theorem X11_record_keys (p : Process) (info : object) :
  NoDup (keys info) ->
  forallb not_index (keys info) = true ->
  NoDup (Object_keys (Index.record p info))
  /\ NoDup (Object_keys (Console.record p info))
  /\ Object_keys (Index.record p info)
     = (Index_reserved
        ++ filter (fun k => negb (mem_string k Index_reserved))
             (filter (fun k => negb (mem_string k printf_named))
                     (keys info)))%list
  /\ Object_keys (Console.record p info)
     = (Console_reserved
        ++ filter (fun k => negb (mem_string k Console_reserved))
             (filter (fun k => negb (mem_string k printf_named))
                     (keys info)))%list.
Proof.
  intros Hnd Hnames.
  pose proof (keys_rest_properties_NoDup printf_named info Hnd) as Hrest.
  assert (Hi : keys (Index.record p info)
               = (Index_reserved
                  ++ filter (fun k => negb (mem_string k Index_reserved))
                       (filter (fun k => negb (mem_string k printf_named))
                               (keys info)))%list).
  { unfold Index.record. rewrite keys_spread by exact Hrest.
    now rewrite keys_rest_properties. }
  assert (Hc : keys (Console.record p info)
               = (Console_reserved
                  ++ filter (fun k => negb (mem_string k Console_reserved))
                       (filter (fun k => negb (mem_string k printf_named))
                               (keys info)))%list).
  { unfold Console.record. rewrite keys_spread by exact Hrest.
    now rewrite keys_rest_properties. }
  assert (Hoi : Object_keys (Index.record p info)
                = keys (Index.record p info)).
  { apply Object_keys_names. rewrite Hi, forallb_app.
    rewrite forallb_filter by (apply forallb_filter; exact Hnames).
    reflexivity. }
  assert (Hoc : Object_keys (Console.record p info)
                = keys (Console.record p info)).
  { apply Object_keys_names. rewrite Hc, forallb_app.
    rewrite forallb_filter by (apply forallb_filter; exact Hnames).
    reflexivity. }
  rewrite Hoi, Hoc. split; [|split; [|split]].
  - unfold Index.record. apply NoDup_keys_spread; [|exact Hrest].
    simpl. repeat constructor; simpl; intuition discriminate.
  - unfold Console.record. apply NoDup_keys_spread; [|exact Hrest].
    simpl. repeat constructor; simpl; intuition discriminate.
  - exact Hi.
  - exact Hc.
Qed.

Lemma X11_record_keys_witness :
  Object_keys (Index.record bare_process
                 (Index.wlogger_info bare_process "t" "info"
                    colliding_object))
  = ["name"; "hostname"; "pid"; "level"; "msg"; "time"; "meta_data"].
Proof.
  destruct (X11_record_keys bare_process
              (Index.wlogger_info bare_process "t" "info" colliding_object))
    as (_ & _ & H & _).
  - vm_compute. repeat constructor; simpl; intuition discriminate.
  - reflexivity.
  - rewrite H. reflexivity.
Defined.

(** X12: the properties the callback renames never reach a record
    under their old names: no record has a key message, label or
    timestamp, and none of the console revision has a key level,
    whatever the info object. *)
Theorem X12_renamed_keys_absent (p : Process) (info : object) (k : string) :
  In k ["message"; "label"; "timestamp"] ->
  ~ In k (keys (Index.record p info))
  /\ ~ In k (keys (Console.record p info))
  /\ ~ In "level" (keys (Console.record p info)).
Proof.
  intros Hk.
  assert (Hnamed : mem_string k printf_named = true).
  { simpl in Hk. destruct Hk as [<-|[<-|[<-|[]]]]; reflexivity. }
  split; [|split]; intros Hin.
  - unfold Index.record in Hin. apply In_keys_spread in Hin.
    destruct Hin as [Hin | Hin].
    + simpl in Hin, Hk.
      destruct Hk as [<-|[<-|[<-|[]]]]; intuition discriminate.
    + exact (named_not_in_rest k printf_named info Hnamed Hin).
  - unfold Console.record in Hin. apply In_keys_spread in Hin.
    destruct Hin as [Hin | Hin].
    + simpl in Hin, Hk.
      destruct Hk as [<-|[<-|[<-|[]]]]; intuition discriminate.
    + exact (named_not_in_rest k printf_named info Hnamed Hin).
  - unfold Console.record in Hin. apply In_keys_spread in Hin.
    destruct Hin as [Hin | Hin].
    + simpl in Hin. intuition discriminate.
    + exact (named_not_in_rest "level" printf_named info eq_refl Hin).
Qed.

Lemma X12_renamed_keys_absent_witness :
  ~ In "message"
      (keys (Index.record bare_process
               (Index.wlogger_info bare_process "t" "info"
                  colliding_object))).
Proof.
  apply (X12_renamed_keys_absent bare_process
           (Index.wlogger_info bare_process "t" "info" colliding_object)
           "message").
  simpl. tauto.
Defined.

(** ** Fields the caller cannot or can reach *)

Lemma get_format_timestamp_other (k now : string) (info : object) :
  k <> "timestamp" ->
  get k (Winston.format_timestamp now info) = get k info.
Proof.
  intros Hk. unfold Winston.format_timestamp.
  destruct (truthy (get "timestamp" info)); [reflexivity|].
  now apply get_set_other.
Qed.

Lemma keys_format_timestamp (k now : string) (info : object) :
  In k (keys (Winston.format_timestamp now info)) ->
  k = "timestamp" \/ In k (keys info).
Proof.
  unfold Winston.format_timestamp.
  destruct (truthy (get "timestamp" info)); [now right|].
  apply In_keys_set_prop.
Qed.

Lemma wlogger_info_level (p : Process) (now level : string) (msg : object) :
  get "level" (Index.wlogger_info p now level msg) = VStr level.
Proof.
  unfold Index.wlogger_info.
  rewrite get_format_timestamp_other by discriminate.
  unfold Winston.format_label, Winston.log_info.
  rewrite get_set_other by discriminate. apply get_set_same.
Qed.

Lemma wlogger_info_label (p : Process) (now level : string) (msg : object) :
  get "label" (Index.wlogger_info p now level msg)
  = VStr (Index.serviceName p).
Proof.
  unfold Index.wlogger_info.
  rewrite get_format_timestamp_other by discriminate.
  apply get_set_same.
Qed.

(** The timestamp of the info object: the caller's own when the logged
    object has a truthy one, else that of the call. *)
Lemma wlogger_info_timestamp (p : Process) (now level : string)
      (msg : object) :
  get "timestamp" (Index.wlogger_info p now level msg)
  = if truthy (get "timestamp" msg) then get "timestamp" msg else VStr now.
Proof.
  unfold Index.wlogger_info, Winston.format_timestamp, Winston.format_label,
    Winston.log_info.
  rewrite !get_set_other by discriminate.
  destruct (truthy (get "timestamp" msg)).
  - now rewrite !get_set_other by discriminate.
  - apply get_set_same.
Qed.

Lemma wlogger_info_message (p : Process) (now level : string)
      (msg : object) :
  get "message" (Index.wlogger_info p now level msg) = get "message" msg.
Proof.
  unfold Index.wlogger_info.
  rewrite get_format_timestamp_other by discriminate.
  unfold Winston.format_label, Winston.log_info.
  now rewrite !get_set_other by discriminate.
Qed.

Lemma In_keys_wlogger_info (p : Process) (now level k : string)
      (msg : object) :
  In k (keys (Index.wlogger_info p now level msg)) ->
  In k ["timestamp"; "label"; "level"] \/ In k (keys msg).
Proof.
  unfold Index.wlogger_info, Winston.format_label, Winston.log_info.
  intros H.
  apply keys_format_timestamp in H.
  destruct H as [-> | H]; [left; simpl; tauto|].
  apply In_keys_set_prop in H. destruct H as [-> | H]; [left; simpl; tauto|].
  apply In_keys_set_prop in H. destruct H as [-> | H]; [left; simpl; tauto|].
  now right.
Qed.

(** X13: in src/index.ts the level field of a record is the code of
    the level the call was made at, whatever object is logged: a
    property named level on the object is overwritten by [log], and the
    callback takes level out of the properties it spreads. *)
Theorem X13_level_field_is_the_call_level (p : Process) (now level : string)
        (msg : object) :
  get "level" (Index.record p (Index.wlogger_info p now level msg))
  = Index.severityCode (VStr level).
Proof.
  apply get_own. unfold Index.record.
  rewrite own_property_spread_untouched
    by (apply (named_not_in_rest "level" printf_named); reflexivity).
  rewrite wlogger_info_level. reflexivity.
Qed.

(** X14: when the logged object has no top-level property named name,
    hostname, pid, msg or time, the reserved fields of the record hold
    the values of the formatter: the service label, even if the object
    brings a label of its own, the host, the pid, the code of the
    level and the object's message.  The time field is the timestamp
    of the call unless the object brings a truthy timestamp of its
    own, which the timestamp format keeps. *)
Theorem X14_reserved_fields_without_collision (p : Process)
        (now level : string) (msg : object) :
  (forall k, In k ["name"; "hostname"; "pid"; "msg"; "time"] ->
             ~ In k (keys msg)) ->
  let r := Index.record p (Index.wlogger_info p now level msg) in
  get "name" r = VStr (Index.serviceName p)
  /\ get "hostname" r = VStr (os_hostname p)
  /\ get "pid" r = VNum (process_pid p)
  /\ get "level" r = Index.severityCode (VStr level)
  /\ get "msg" r = get "message" msg
  /\ get "time" r
     = (if truthy (get "timestamp" msg) then get "timestamp" msg
        else VStr now).
Proof.
  intros Hfree r.
  assert (Hrest : forall k, In k ["name"; "hostname"; "pid"; "msg"; "time"] ->
            ~ In k (keys (rest_properties printf_named
                            (Index.wlogger_info p now level msg)))).
  { intros k Hk Hin. apply In_keys_rest in Hin.
    apply In_keys_wlogger_info in Hin. destruct Hin as [Hin | Hin].
    - simpl in Hk, Hin.
      destruct Hk as [<-|[<-|[<-|[<-|[<-|[]]]]]]; intuition discriminate.
    - exact (Hfree k Hk Hin). }
  assert (Hfield : forall k, In k ["name"; "hostname"; "pid"; "msg"; "time"] ->
            get k r
            = get k [("name", get "label" (Index.wlogger_info p now level msg));
                     ("hostname", VStr (os_hostname p));
                     ("pid", VNum (process_pid p));
                     ("level",
                      Index.severityCode
                        (get "level" (Index.wlogger_info p now level msg)));
                     ("msg", get "message" (Index.wlogger_info p now level msg));
                     ("time",
                      get "timestamp" (Index.wlogger_info p now level msg))]).
  { intros k Hk. unfold r, Index.record, get.
    now rewrite own_property_spread_untouched by exact (Hrest k Hk). }
  split; [|split; [|split; [|split; [|split]]]].
  - rewrite Hfield by (simpl; tauto). rewrite wlogger_info_label. reflexivity.
  - rewrite Hfield by (simpl; tauto). reflexivity.
  - rewrite Hfield by (simpl; tauto). reflexivity.
  - apply get_own. unfold r, Index.record.
    rewrite own_property_spread_untouched
      by (apply (named_not_in_rest "level" printf_named); reflexivity).
    rewrite wlogger_info_level. reflexivity.
  - rewrite Hfield by (simpl; tauto). rewrite wlogger_info_message.
    reflexivity.
  - rewrite Hfield by (simpl; tauto).
    change (get "time" [("name", get "label" (Index.wlogger_info p now level msg));
                     ("hostname", VStr (os_hostname p));
                     ("pid", VNum (process_pid p));
                     ("level",
                      Index.severityCode
                        (get "level" (Index.wlogger_info p now level msg)));
                     ("msg", get "message" (Index.wlogger_info p now level msg));
                     ("time",
                      get "timestamp" (Index.wlogger_info p now level msg))])
      with (get "timestamp" (Index.wlogger_info p now level msg)).
    apply wlogger_info_timestamp.
Qed.

Lemma X14_reserved_fields_without_collision_witness :
  let r := Index.record bare_process
             (Index.wlogger_info bare_process "t" "info"
                [("message", VStr "m"); ("label", VStr "forged");
                 ("timestamp", VStr "never")]) in
  get "name" r = VStr "unknown" /\ get "time" r = VStr "never".
Proof.
  assert (H : forall k, In k ["name"; "hostname"; "pid"; "msg"; "time"] ->
              ~ In k (keys [("message", VStr "m"); ("label", VStr "forged");
                            ("timestamp", VStr "never")])).
  { intros k Hk Hin. simpl in Hk, Hin.
    destruct Hk as [<-|[<-|[<-|[<-|[<-|[]]]]]]; intuition discriminate. }
  destruct (X14_reserved_fields_without_collision bare_process "t" "info"
              [("message", VStr "m"); ("label", VStr "forged");
               ("timestamp", VStr "never")] H)
    as (Hname & _ & _ & _ & _ & Htime).
  split; [exact Hname | exact Htime].
Defined.

(** ** What a line leaves out *)

Lemma object_members_written (gap stepback : string) (o : object) :
  object_members (SerializeJSONProperty gap stepback) gap (filter written o)
  = object_members (SerializeJSONProperty gap stepback) gap o.
Proof.
  induction o as [|[k v] rest IH]; [reflexivity|].
  change (filter written ((k, v) :: rest))
    with (if written (k, v) then (k, v) :: filter written rest
          else filter written rest).
  assert (Hser : SerializeJSONProperty gap stepback v = None
                 <-> written (k, v) = false).
  { unfold written.
    destruct v as [| | [] | | | | |]; simpl; split; intros H;
      solve [reflexivity | discriminate H]. }
  cbn [object_members snd fst].
  destruct (written (k, v)).
  - cbn [object_members snd fst]. rewrite IH. reflexivity.
  - rewrite (proj2 Hser eq_refl). exact IH.
Qed.

Lemma JSON_stringify_written (o : object) :
  JSON_stringify (filter written o) = JSON_stringify o.
Proof.
  unfold JSON_stringify. cbn [SerializeJSONProperty].
  now rewrite object_members_written.
Qed.

(** X15: for an info object that holds no function under the key
    toJSON, at any depth, a field of the record whose value is
    [undefined] or a function leaves no trace in the line: the callback
    returns the serialization of the record without those fields.  So
    an object logged without a message property gives a record whose
    msg is [undefined], hence a line without msg. *)
Theorem X15_unwritten_fields (p : Process) (now level : string)
        (info msg : object) :
  toJSON_free (VObj info) = true ->
  Index.printf p info = JSON_stringify (filter written (Index.record p info))
  /\ Console.printf p info
     = JSON_stringify (filter written (Console.record p info))
  /\ (~ In "message" (keys msg) -> ~ In "msg" (keys msg) ->
      get "msg" (Index.record p (Index.wlogger_info p now level msg))
      = VUndefined).
Proof.
  intros _. split; [|split].
  - unfold Index.printf. now rewrite JSON_stringify_written.
  - unfold Console.printf. now rewrite JSON_stringify_written.
  - intros Hmessage Hmsg. apply get_own. unfold Index.record.
    rewrite own_property_spread_untouched.
    + change (Some (get "message" (Index.wlogger_info p now level msg))
              = Some VUndefined).
      rewrite wlogger_info_message. unfold get.
      rewrite (own_property_absent "message" msg Hmessage). reflexivity.
    + intros Hin. apply In_keys_rest in Hin.
      apply In_keys_wlogger_info in Hin. destruct Hin as [Hin | Hin].
      * simpl in Hin. intuition discriminate.
      * exact (Hmsg Hin).
Qed.

Lemma X15_unwritten_fields_witness :
  Index.printf bare_process
    [("level", VStr "constructor"); ("message", VStr "m");
     ("label", VStr "svc"); ("timestamp", VStr "t")]
  = JSON_stringify
      [("name", VStr "svc"); ("hostname", VStr "host"); ("pid", VNum 4242);
       ("msg", VStr "m"); ("time", VStr "t")].
Proof.
  apply (X15_unwritten_fields bare_process "t" "info"
           [("level", VStr "constructor"); ("message", VStr "m");
            ("label", VStr "svc"); ("timestamp", VStr "t")] []).
  reflexivity.
Defined.

(** ** Levels outside the table of winston *)

Lemma level_rank_outside (level : string) :
  ~ In level (keys Winston.levels) ->
  forall n, Winston.level_rank level <> Winston.Rank n.
Proof.
  intros Hout n. unfold Winston.level_rank, get.
  rewrite (own_property_absent level Winston.levels Hout).
  unfold Object_prototype.
  destruct (level =? "__proto__"); [discriminate|].
  destruct (mem_string level Object_prototype_names); discriminate.
Qed.

Lemma known_level_rank (p : Process) :
  loads_with_known_level p = true ->
  Index.wlogger_level p <> "" ->
  (exists n, Winston.level_rank (Index.wlogger_level p) = Winston.Rank n)
  \/ Winston.level_rank (Index.wlogger_level p) = Winston.RankNaN.
Proof.
  unfold loads_with_known_level, Index.logLevel, Index.wlogger_level,
    Winston.createLogger_level, env_or.
  destruct (process_env p "LOG_LEVEL") as [l|].
  - destruct (String.eqb_spec l "") as [->|_]; [intros _ H; now destruct H|].
    intros H _. apply mem_string_In in H. simpl in H.
    destruct H as [<-|[<-|[<-|[<-|[<-|[<-|[]]]]]]];
      solve [right; reflexivity | left; eexists; reflexivity].
  - intros _ _. left. eexists. reflexivity.
Qed.

(** X16: in a module that loads with a level bunyan knows, LOG_LEVEL
    not being the empty string, the transport writes no record for a
    call made at a level that is not in winston's table, in any
    revision: of the names the level mapping passes through unchanged,
    only http, verbose and silly can reach a line. *)
Theorem X16_unknown_levels_are_dropped (p : Process) (now level : string)
        (msg : object) :
  loads_with_known_level p = true ->
  Index.wlogger_level p <> "" ->
  ~ In level (keys Winston.levels) ->
  Index.wlogger_log p now level msg = []
  /\ Console.wlogger_log p now level msg = []
  /\ Legacy.wlogger_log p now level msg = [].
Proof.
  intros Hloads Hlevel Hout.
  pose proof (level_rank_outside level Hout) as Hrank.
  assert (Hdrop : forall r,
            (exists n, r = Winston.Rank n) \/ r = Winston.RankNaN ->
            Winston.rank_ge r (Winston.level_rank level) = false).
  { intros r [[n ->] | ->]; [|reflexivity].
    simpl. destruct (Winston.level_rank level) as [k| |];
      [now destruct (Hrank k) | reflexivity | reflexivity]. }
  assert (Hgate : Winston.transport_accepts None (Index.wlogger_level p) level
                  = false).
  { unfold Winston.transport_accepts.
    destruct (String.eqb_spec (Index.wlogger_level p) ""); [contradiction|].
    apply Hdrop. exact (known_level_rank p Hloads Hlevel). }
  split; [|split].
  - unfold Index.wlogger_log. rewrite Hgate. now rewrite andb_false_r.
  - unfold Console.wlogger_log. rewrite Console_gate.
    change (Console.wlogger_level p) with (Index.wlogger_level p).
    rewrite Hgate, andb_false_r. now destruct (Console.development p).
  - unfold Legacy.wlogger_log, Winston.transport_accepts.
    change (Legacy.wlogger_level =? "") with false. cbv iota.
    rewrite Hdrop by (left; eexists; reflexivity).
    now rewrite andb_false_r.
Qed.

Lemma X16_unknown_levels_are_dropped_witness :
  Index.wlogger_log bare_process "t" "trace" (object_of usage_info) = []
  /\ Index.wlogger_log (configured_process None (Some "debug") None) "t"
       "constructor" (object_of usage_info) = [].
Proof.
  split.
  - apply (X16_unknown_levels_are_dropped bare_process "t" "trace"
             (object_of usage_info));
      [reflexivity | discriminate | simpl; intuition discriminate].
  - apply (X16_unknown_levels_are_dropped
             (configured_process None (Some "debug") None) "t" "constructor"
             (object_of usage_info));
      [reflexivity | discriminate | simpl; intuition discriminate].
Defined.

(** ** The console line of a logged call *)

Lemma append_cancel (a x y : string) : a ++ x = a ++ y -> x = y.
Proof.
  induction a as [|c a IH]; simpl; intros H; [exact H|].
  injection H as H. now apply IH.
Qed.

Lemma append_empty (a : string) : a ++ "" = a.
Proof. induction a as [|c a IH]; simpl; [reflexivity | now rewrite IH]. Qed.

Lemma own_property_In (k : string) (v : value) (o : object) :
  own_property k o = Some v -> In k (keys o).
Proof.
  induction o as [|[k' v'] rest IH]; simpl; [discriminate|].
  destruct (String.eqb_spec k' k) as [->|_]; [now left|].
  intros H. right. now apply IH.
Qed.

Lemma In_keys_set_same (k : string) (v : value) (o : object) :
  In k (keys (set_prop k v o)).
Proof. apply (own_property_In k v). apply own_property_set_same. Qed.

Lemma In_keys_set_keep (k k' : string) (v : value) (o : object) :
  In k (keys o) -> In k (keys (set_prop k' v o)).
Proof.
  intros H. rewrite keys_set_prop.
  destruct (mem_string k' (keys o)); [exact H|].
  apply in_or_app. now left.
Qed.

Lemma In_keys_format_timestamp_keep (k now : string) (info : object) :
  In k (keys info) -> In k (keys (Winston.format_timestamp now info)).
Proof.
  intros H. unfold Winston.format_timestamp.
  destruct (truthy (get "timestamp" info)); [exact H|].
  now apply In_keys_set_keep.
Qed.

Lemma timestamp_present (now : string) (info : object) :
  In "timestamp" (keys (Winston.format_timestamp now info)).
Proof.
  unfold Winston.format_timestamp.
  destruct (truthy (get "timestamp" info)) eqn:E;
    [|apply In_keys_set_same].
  unfold get in E.
  destruct (own_property "timestamp" info) as [v|] eqn:Eo.
  - exact (own_property_In _ _ _ Eo).
  - discriminate E.
Qed.

(** Whatever object is logged, the rest object of the console callback
    holds the label and the timestamp. *)
Lemma Console_rest_never_empty (p : Process) (now level : string)
      (o : object) :
  In "label"
     (keys (rest_properties ["level"; "message"]
              (Console.wlogger_info p now level o)))
  /\ In "timestamp"
        (keys (rest_properties ["level"; "message"]
                 (Console.wlogger_info p now level o))).
Proof.
  rewrite keys_rest_properties. split; apply filter_In; split;
    try reflexivity.
  - unfold Console.wlogger_info. apply In_keys_format_timestamp_keep.
    apply In_keys_set_same.
  - unfold Console.wlogger_info. apply timestamp_present.
Qed.

(** C7, as the code has it: under NODE_ENV development a call with the
    mandatory metadata only, and a call with an empty [meta_data], are
    written with the pretty-printed object of meta_data, label and
    timestamp after the message; the second shows a pair of empty
    braces.  Neither line is the bare level and message. *)
Lemma C7_logged_line_has_braces :
  Console.logger Info development_process "t" minimal_call
  = ["[info]: m "
     ++ json_text
          (text_lines
             ["{"; "  'meta_data': {"; "    'trace_id': '1',";
              "    'stack': 'NODE'"; "  },"; "  'label': 'unknown',";
              "  'timestamp': 't'"; "}"])]
  /\ Console.logger Info development_process "t" untagged_call
     = ["[info]: m "
        ++ json_text
             (text_lines
                ["{"; "  'meta_data': {},"; "  'label': 'unknown',";
                 "  'timestamp': 't'"; "}"])]
  /\ Console.logger Info development_process "t" minimal_call
     <> ["[info]: m "]
  /\ Console.logger Info development_process "t" minimal_call
     <> ["[info]: m"]
  /\ Console.logger Info development_process "t" untagged_call
     <> ["[info]: m "]
  /\ Console.logger Info development_process "t" untagged_call
     <> ["[info]: m"].
Proof.
  repeat split; try (vm_compute; reflexivity); vm_compute; discriminate.
Qed.

(** C7, amended: under NODE_ENV development a call that passes the
    gate is written as the coloured level, a colon and a space, the
    message, a space and the pretty-printed object of meta_data, label
    and timestamp; the line is never the bare level and message, with
    or without the trailing space.  Whatever object is logged, the rest
    object of the callback holds label and timestamp; the bare form is
    what the callback returns for an info object with no property
    besides level and message. *)
Theorem C7_console_line_of_a_call (m : LoggerMethod) (p : Process)
        (now : string) (logObject : StdLogObject) :
  Console.development p = true ->
  Winston.transport_accepts None (Console.wlogger_level p) (method_level m)
  = true ->
  let bare := colorizer p (method_level m) ++ ": " ++ message logObject in
  let line :=
    bare ++ " "
    ++ JSON_stringify_pretty
         [("meta_data", VObj (meta_data logObject));
          ("label", VStr (Console.serviceName p)); ("timestamp", VStr now)] in
  Console.logger m p now logObject = [line]
  /\ line <> bare ++ " "
  /\ line <> bare
  /\ (forall (level : string) (o : object),
         In "label"
            (keys (rest_properties ["level"; "message"]
                     (Console.wlogger_info p now level o)))
         /\ In "timestamp"
               (keys (rest_properties ["level"; "message"]
                        (Console.wlogger_info p now level o))))
  /\ (forall info : object,
         keys (rest_properties ["level"; "message"] info) = [] ->
         Console.consoleFormat_printf info
         = ToString (get "level" info) ++ ": "
           ++ ToString (get "message" info) ++ " ").
Proof.
  intros Hdev Hgate bare line.
  split; [|split; [|split; [|split]]].
  - unfold Console.logger, Console.logWrapper, Console.wlogger_log.
    rewrite Hdev, Console_gate, Hgate. unfold line, bare.
    rewrite !append_assoc. reflexivity.
  - unfold line. intros H. apply append_cancel in H.
    apply (append_cancel " " _ "") in H. discriminate H.
  - unfold line. intros H. rewrite <- (append_empty bare) in H at 2.
    apply append_cancel in H. discriminate H.
  - intros level o. apply Console_rest_never_empty.
  - intros info Hk. unfold Console.consoleFormat_printf. now rewrite Hk.
Qed.

Lemma C7_console_line_of_a_call_witness :
  Console.logger Error development_process "t" minimal_call
  = [("[error]" ++ ": " ++ "m") ++ " "
     ++ JSON_stringify_pretty
          [("meta_data",
            VObj [("trace_id", VStr "1"); ("stack", VStr "NODE")]);
           ("label", VStr "unknown"); ("timestamp", VStr "t")]].
Proof.
  apply (C7_console_line_of_a_call Error development_process "t"
           minimal_call); reflexivity.
Defined.

(** ** Objects wider than the interface *)







